(** * go-metrics: the Meter, its snapshots and the meter arbiter

    A shallow embedding of [meter.go]: [MeterSnapshot], [NilMeter],
    [StandardMeter] and [meterArbiter], with the properties of the
    specification stated over it.

    Modelling choices.
    - [int64] and [uint64] values are integers of [Z]; every [int64]
      addition and subtraction is wrapped by [wrap64].
    - [float64] is Rocq's primitive binary64 [float]; [math.Float64bits] and
      [math.Float64frombits] go through the IEEE 754 encoding of
      [spec_float].  The primitive type has a single NaN, so NaN payloads
      are collapsed.
    - Go pointers are addresses into two heaps, one of [MeterSnapshot]
      objects and one of [StandardMeter] objects; address [0] is [nil] and
      is never allocated.  Dereferencing an address that holds no object
      panics.
    - A panic is a result of the computation; the heap effects made before
      the panic persist, as they do in Go.
    - [time.Now()] is an input: every operation that reads the clock takes
      the reading as an argument.
    - Operations are executed one at a time; the mutexes and the atomicity
      of single loads and stores are therefore not represented. *)

From Stdlib Require Import ZArith Floats String Lia.
From stdpp Require Import gmap.

Local Open Scope Z_scope.

(** ** Machine integers *)

Definition min_int64 : Z := - 2^63.
Definition max_int64 : Z := 2^63 - 1.

(** Two's complement wrap-around of a 64-bit signed integer. *)
Definition wrap64 (z : Z) : Z := (z + 2^63) mod 2^64 - 2^63.

Definition int64_add (a b : Z) : Z := wrap64 (a + b).
Definition int64_sub (a b : Z) : Z := wrap64 (a - b).

Definition is_int64 (z : Z) : Prop := min_int64 <= z <= max_int64.

(** ** float64 *)

(** Conversion [float64(n)] of an [int64]: rounding to nearest, ties to
    even. *)
Definition float64_of_int64 (z : Z) : float :=
  SF2Prim (binary_normalize prec emax z 0 false).

(** The IEEE 754 binary64 encoding: sign bit, 11 bits of biased exponent,
    52 bits of fraction. *)
Definition SFbits (x : spec_float) : Z :=
  match x with
  | S754_zero s => if s then 2^63 else 0
  | S754_infinity s => (if s then 2^63 else 0) + 2047 * 2^52
  | S754_nan => 2047 * 2^52 + 2^51 + 1
  | S754_finite s m e =>
      (if s then 2^63 else 0) +
      (if Z.pos m <? 2^52 then Z.pos m
       else (e + 1075) * 2^52 + (Z.pos m - 2^52))
  end.

Definition bitsSF (b : Z) : spec_float :=
  let s := Z.odd (b / 2^63) in
  let E := (b / 2^52) mod 2^11 in
  let frac := b mod 2^52 in
  if E =? 0 then
    match frac with
    | Z.pos m => S754_finite s m (-1074)
    | _ => S754_zero s
    end
  else if E =? 2047 then
    (if frac =? 0 then S754_infinity s else S754_nan)
  else
    match frac + 2^52 with
    | Z.pos m => S754_finite s m (E - 1075)
    | _ => S754_nan
    end.

(** [math.Float64bits] and [math.Float64frombits]. *)
Definition Float64bits (f : float) : Z := SFbits (Prim2SF f).
Definition Float64frombits (b : Z) : float := SF2Prim (bitsSF b).

(** ** time *)

(** A [time.Time] is its monotonic clock reading, in nanoseconds; a
    [time.Duration] is an [int64] count of nanoseconds. *)
Definition Time := Z.
Definition Duration := Z.

(** [t.Sub(u)]: the difference, saturated to the range of [Duration]. *)
Definition Time_Sub (t u : Time) : Duration :=
  if t - u <? min_int64 then min_int64
  else if max_int64 <? t - u then max_int64
  else t - u.

Definition Second : Duration := 1000000000.

(** [d.Seconds()]: [sec := d / Second; nsec := d % Second;
    return float64(sec) + float64(nsec)/1e9]. *)
Definition Duration_Seconds (d : Duration) : float :=
  (float64_of_int64 (Z.quot d Second)
   + float64_of_int64 (Z.rem d Second) / 1e9)%float.

(** ** EWMA *)

(** Modelled from the spec: the EWMA type, its constructors and its methods
    [Update], [Tick] and [Rate] are declared in a file that is not part of
    the sources at hand.  Section 3 of the specification gives the
    attributes, section 4.1 the operations: [Update] adds to [uncounted];
    [Tick] drains [uncounted], computes the instantaneous rate over the
    tick interval of five seconds and either initialises the rate with it
    or moves the rate towards it by [alpha]; [Rate] scales the stored rate
    to events per second and is 0 before the first tick. *)
Record EWMA := mkEWMA {
  uncounted : Z;
  alpha : float;
  rate : float;
  init : bool
}.

Definition NewEWMA (a : float) : EWMA :=
  {| uncounted := 0; alpha := a; rate := 0%float; init := false |}.

Definition EWMA_Update (n : Z) (a : EWMA) : EWMA :=
  {| uncounted := int64_add (uncounted a) n;
     alpha := alpha a; rate := rate a; init := init a |}.

Definition EWMA_Tick (a : EWMA) : EWMA :=
  let count := uncounted a in
  let instantRate := (float64_of_int64 count / 5e9)%float in
  {| uncounted := int64_add (uncounted a) (- count);
     alpha := alpha a;
     rate := if init a
             then (rate a + alpha a * (instantRate - rate a))%float
             else instantRate;
     init := true |}.

Definition EWMA_Rate (a : EWMA) : float := (rate a * 1e9)%float.

Section DecayConstants.

(** [math.Exp] is not among the primitive float operations: the decay
    constants are computed from a function taken as a parameter.  No
    property below depends on its values. *)
Variable Exp : float -> float.

(** Modelled from the spec: [alpha = 1 - exp(-tickIntervalSeconds /
    windowMinutes / 60)], for windows of 1, 5 and 15 minutes. *)
Definition NewEWMA1 : EWMA := NewEWMA (1 - Exp (- 5 / 60 / 1))%float.
Definition NewEWMA5 : EWMA := NewEWMA (1 - Exp (- 5 / 60 / 5))%float.
Definition NewEWMA15 : EWMA := NewEWMA (1 - Exp (- 5 / 60 / 15))%float.

End DecayConstants.

(** ** The data of meter.go *)

(** Addresses; [nil] is address 0. *)
Definition loc := nat.
Definition nilptr : loc := 0%nat.

(** [type MeterSnapshot struct]: the rates are kept as the bits of a
    [float64]. *)
Record MeterSnapshot := mkMeterSnapshot {
  count : Z;
  _lastCount : Z;
  rate1 : Z;
  rate5 : Z;
  rate15 : Z;
  rateMean : Z;
  rateStep : Z;
  _lastTime : Time
}.

(** [type StandardMeter struct]; the three EWMAs are owned by the meter and
    are kept by value.  The mutex has no content in a sequential model. *)
Record StandardMeter := mkStandardMeter {
  snapshot : loc;
  a1 : EWMA;
  a5 : EWMA;
  a15 : EWMA;
  startTime : Time;
  stopped : Z
}.

(** [type meterArbiter struct]: the set of registered meters, by address.
    The ticker is represented by the events it delivers, see
    [arbiter_tick]. *)
Record meterArbiter := mkMeterArbiter {
  started : bool;
  meters : gset loc
}.

(** A value of the interface type [Meter]: a [*StandardMeter], a
    [*MeterSnapshot] or a [NilMeter]. *)
Inductive Meter :=
| MStandard (p : loc)
| MSnapshot (q : loc)
| MNil.

(** The state of the package: the two heaps, the package variable [arbiter]
    and the package variable [UseNilMetrics], which is declared in another
    file of the package. *)
Record world := mkWorld {
  snapshots : gmap loc MeterSnapshot;
  standardMeters : gmap loc StandardMeter;
  arbiter : meterArbiter;
  UseNilMetrics : bool
}.

(** ** Computations that may panic *)

Inductive result (A : Type) :=
| Ok (a : A)
| Panic (msg : string).
Arguments Ok {A} a.
Arguments Panic {A} msg.

(** A computation reads and writes the world and either returns a value or
    panics; the world it leaves behind is kept in both cases. *)
Definition M (A : Type) : Type := world -> result A * world.

Definition ret {A} (a : A) : M A := fun w => (Ok a, w).

Definition bind {A B} (c : M A) (k : A -> M B) : M B :=
  fun w =>
    match c w with
    | (Ok a, w') => k a w'
    | (Panic msg, w') => (Panic msg, w')
    end.

Definition panic {A} (msg : string) : M A := fun w => (Panic msg, w).

Notation "'do' x <- c ; k" := (bind c (fun x => k))
  (at level 10, x name, c at level 100, k at level 200).
Notation "'run' c ; k" := (bind c (fun _ => k))
  (at level 10, c at level 100, k at level 200).

(** The message of the run-time panic raised by a nil dereference. *)
Definition nil_dereference : string :=
  "runtime error: invalid memory address or nil pointer dereference".

(** *** Heap accesses *)

Definition loadSnapshot (q : loc) : M MeterSnapshot :=
  fun w =>
    match snapshots w !! q with
    | Some s => (Ok s, w)
    | None => (Panic nil_dereference, w)
    end.

Definition storeSnapshot (q : loc) (s : MeterSnapshot) : M unit :=
  fun w =>
    (Ok tt, {| snapshots := <[q := s]> (snapshots w);
               standardMeters := standardMeters w;
               arbiter := arbiter w;
               UseNilMetrics := UseNilMetrics w |}).

(** An access to one field of [*q]. *)
Definition modifySnapshot (q : loc) (f : MeterSnapshot -> MeterSnapshot)
  : M unit :=
  do s <- loadSnapshot q; storeSnapshot q (f s).

Definition loadMeter (p : loc) : M StandardMeter :=
  fun w =>
    match standardMeters w !! p with
    | Some m => (Ok m, w)
    | None => (Panic nil_dereference, w)
    end.

Definition storeMeter (p : loc) (m : StandardMeter) : M unit :=
  fun w =>
    (Ok tt, {| snapshots := snapshots w;
               standardMeters := <[p := m]> (standardMeters w);
               arbiter := arbiter w;
               UseNilMetrics := UseNilMetrics w |}).

Definition modifyMeter (p : loc) (f : StandardMeter -> StandardMeter)
  : M unit :=
  do m <- loadMeter p; storeMeter p (f m).

Definition getArbiter : M meterArbiter := fun w => (Ok (arbiter w), w).

Definition putArbiter (a : meterArbiter) : M unit :=
  fun w =>
    (Ok tt, {| snapshots := snapshots w;
               standardMeters := standardMeters w;
               arbiter := a;
               UseNilMetrics := UseNilMetrics w |}).

Definition getUseNilMetrics : M bool := fun w => (Ok (UseNilMetrics w), w).

(** Allocation: a new object lives at an address that is not [nil] and holds
    no object yet. *)
Definition allocSnapshot (s : MeterSnapshot) : M loc :=
  fun w =>
    let q := fresh ({[nilptr]} ∪ dom (snapshots w)) in
    (Ok q, {| snapshots := <[q := s]> (snapshots w);
              standardMeters := standardMeters w;
              arbiter := arbiter w;
              UseNilMetrics := UseNilMetrics w |}).

Definition allocMeter (m : StandardMeter) : M loc :=
  fun w =>
    let p := fresh ({[nilptr]} ∪ dom (standardMeters w)) in
    (Ok p, {| snapshots := snapshots w;
              standardMeters := <[p := m]> (standardMeters w);
              arbiter := arbiter w;
              UseNilMetrics := UseNilMetrics w |}).

(** *** Field updates *)

Definition set_count (c : Z) (s : MeterSnapshot) : MeterSnapshot :=
  {| count := c; _lastCount := _lastCount s;
     rate1 := rate1 s; rate5 := rate5 s; rate15 := rate15 s;
     rateMean := rateMean s; rateStep := rateStep s;
     _lastTime := _lastTime s |}.

Definition set_lastCount (c : Z) (s : MeterSnapshot) : MeterSnapshot :=
  {| count := count s; _lastCount := c;
     rate1 := rate1 s; rate5 := rate5 s; rate15 := rate15 s;
     rateMean := rateMean s; rateStep := rateStep s;
     _lastTime := _lastTime s |}.

Definition set_rate1 (r : Z) (s : MeterSnapshot) : MeterSnapshot :=
  {| count := count s; _lastCount := _lastCount s;
     rate1 := r; rate5 := rate5 s; rate15 := rate15 s;
     rateMean := rateMean s; rateStep := rateStep s;
     _lastTime := _lastTime s |}.

Definition set_rate5 (r : Z) (s : MeterSnapshot) : MeterSnapshot :=
  {| count := count s; _lastCount := _lastCount s;
     rate1 := rate1 s; rate5 := r; rate15 := rate15 s;
     rateMean := rateMean s; rateStep := rateStep s;
     _lastTime := _lastTime s |}.

Definition set_rate15 (r : Z) (s : MeterSnapshot) : MeterSnapshot :=
  {| count := count s; _lastCount := _lastCount s;
     rate1 := rate1 s; rate5 := rate5 s; rate15 := r;
     rateMean := rateMean s; rateStep := rateStep s;
     _lastTime := _lastTime s |}.

Definition set_rateMean (r : Z) (s : MeterSnapshot) : MeterSnapshot :=
  {| count := count s; _lastCount := _lastCount s;
     rate1 := rate1 s; rate5 := rate5 s; rate15 := rate15 s;
     rateMean := r; rateStep := rateStep s;
     _lastTime := _lastTime s |}.

Definition set_rateStep (r : Z) (s : MeterSnapshot) : MeterSnapshot :=
  {| count := count s; _lastCount := _lastCount s;
     rate1 := rate1 s; rate5 := rate5 s; rate15 := rate15 s;
     rateMean := rateMean s; rateStep := r;
     _lastTime := _lastTime s |}.

Definition set_lastTime (t : Time) (s : MeterSnapshot) : MeterSnapshot :=
  {| count := count s; _lastCount := _lastCount s;
     rate1 := rate1 s; rate5 := rate5 s; rate15 := rate15 s;
     rateMean := rateMean s; rateStep := rateStep s;
     _lastTime := t |}.

Definition set_a1 (a : EWMA) (m : StandardMeter) : StandardMeter :=
  {| snapshot := snapshot m; a1 := a; a5 := a5 m; a15 := a15 m;
     startTime := startTime m; stopped := stopped m |}.

Definition set_a5 (a : EWMA) (m : StandardMeter) : StandardMeter :=
  {| snapshot := snapshot m; a1 := a1 m; a5 := a; a15 := a15 m;
     startTime := startTime m; stopped := stopped m |}.

Definition set_a15 (a : EWMA) (m : StandardMeter) : StandardMeter :=
  {| snapshot := snapshot m; a1 := a1 m; a5 := a5 m; a15 := a;
     startTime := startTime m; stopped := stopped m |}.

Definition set_stopped (v : Z) (m : StandardMeter) : StandardMeter :=
  {| snapshot := snapshot m; a1 := a1 m; a5 := a5 m; a15 := a15 m;
     startTime := startTime m; stopped := v |}.

(** ** MeterSnapshot: a read-only copy of another Meter *)

Definition MeterSnapshot_Count (q : loc) : M Z :=
  do s <- loadSnapshot q; ret (count s).

(** [Mark] panics; the receiver is not dereferenced. *)
Definition MeterSnapshot_Mark (q : loc) (n : Z) : M unit :=
  panic "Mark called on a MeterSnapshot".

Definition MeterSnapshot_Rate1 (q : loc) : M float :=
  do s <- loadSnapshot q; ret (Float64frombits (rate1 s)).

Definition MeterSnapshot_Rate5 (q : loc) : M float :=
  do s <- loadSnapshot q; ret (Float64frombits (rate5 s)).

Definition MeterSnapshot_Rate15 (q : loc) : M float :=
  do s <- loadSnapshot q; ret (Float64frombits (rate15 s)).

Definition MeterSnapshot_RateMean (q : loc) : M float :=
  do s <- loadSnapshot q; ret (Float64frombits (rateMean s)).

Definition MeterSnapshot_RateStep (q : loc) : M float :=
  do s <- loadSnapshot q; ret (Float64frombits (rateStep s)).

(** [Snapshot] returns the receiver itself. *)
Definition MeterSnapshot_Snapshot (q : loc) : M Meter := ret (MSnapshot q).

Definition MeterSnapshot_Stop (q : loc) : M unit := ret tt.

(** ** NilMeter: the no-op Meter *)

Definition NilMeter_Count : M Z := ret 0.
Definition NilMeter_Mark (n : Z) : M unit := ret tt.
Definition NilMeter_Rate1 : M float := ret 0%float.
Definition NilMeter_Rate5 : M float := ret 0%float.
Definition NilMeter_Rate15 : M float := ret 0%float.
Definition NilMeter_RateMean : M float := ret 0%float.
Definition NilMeter_RateStep : M float := ret 0%float.
Definition NilMeter_Snapshot : M Meter := ret MNil.
Definition NilMeter_Stop : M unit := ret tt.

(** ** StandardMeter *)

(** [newStandardMeter], with [nw] the reading of [time.Now()]. *)
Definition newStandardMeter (Exp : float -> float) (nw : Time) : M loc :=
  do q <- allocSnapshot
            {| count := 0; _lastCount := 0;
               rate1 := 0; rate5 := 0; rate15 := 0;
               rateMean := 0; rateStep := 0;
               _lastTime := nw |};
  allocMeter
    {| snapshot := q;
       a1 := NewEWMA1 Exp; a5 := NewEWMA5 Exp; a15 := NewEWMA15 Exp;
       startTime := nw;
       stopped := 0 |}.

Definition deregister (p : loc) : M unit :=
  do a <- getArbiter;
  putArbiter {| started := started a; meters := meters a ∖ {[p]} |}.

Definition StandardMeter_Stop (p : loc) : M unit :=
  do m <- loadMeter p;
  let stopped0 := stopped m in
  run storeMeter p (set_stopped 1 m);
  if negb (stopped0 =? 1) then deregister p else ret tt.

Definition StandardMeter_Count (p : loc) : M Z :=
  do m <- loadMeter p;
  do s <- loadSnapshot (snapshot m);
  ret (count s).

(** [updateSnapshot], with [nw] the clock reading of [time.Since]. *)
Definition updateSnapshot (p : loc) (nw : Time) : M unit :=
  do m <- loadMeter p;
  let r1 := Float64bits (EWMA_Rate (a1 m)) in
  let r5 := Float64bits (EWMA_Rate (a5 m)) in
  let r15 := Float64bits (EWMA_Rate (a15 m)) in
  do c <- StandardMeter_Count p;
  let rMean :=
    Float64bits
      (float64_of_int64 c
       / Duration_Seconds (Time_Sub nw (startTime m)))%float in
  run modifySnapshot (snapshot m) (set_rate1 r1);
  run modifySnapshot (snapshot m) (set_rate5 r5);
  run modifySnapshot (snapshot m) (set_rate15 r15);
  modifySnapshot (snapshot m) (set_rateMean rMean).

Definition StandardMeter_Mark (p : loc) (n : Z) (nw : Time) : M unit :=
  do m <- loadMeter p;
  if stopped m =? 1 then ret tt
  else
    run modifySnapshot (snapshot m)
          (fun s => set_count (int64_add (count s) n) s);
    run modifyMeter p (fun m => set_a1 (EWMA_Update n (a1 m)) m);
    run modifyMeter p (fun m => set_a5 (EWMA_Update n (a5 m)) m);
    run modifyMeter p (fun m => set_a15 (EWMA_Update n (a15 m)) m);
    updateSnapshot p nw.

Definition StandardMeter_Rate1 (p : loc) : M float :=
  do m <- loadMeter p;
  do s <- loadSnapshot (snapshot m);
  ret (Float64frombits (rate1 s)).

Definition StandardMeter_Rate5 (p : loc) : M float :=
  do m <- loadMeter p;
  do s <- loadSnapshot (snapshot m);
  ret (Float64frombits (rate5 s)).

Definition StandardMeter_Rate15 (p : loc) : M float :=
  do m <- loadMeter p;
  do s <- loadSnapshot (snapshot m);
  ret (Float64frombits (rate15 s)).

Definition StandardMeter_RateMean (p : loc) : M float :=
  do m <- loadMeter p;
  do s <- loadSnapshot (snapshot m);
  ret (Float64frombits (rateMean s)).

(** [updateSnapshotOnStep], with [nw] the reading of [time.Now()]. *)
Definition updateSnapshotOnStep (p : loc) (nw : Time) : M unit :=
  do m <- loadMeter p;
  let sub := Duration_Seconds (Time_Sub nw (startTime m)) in
  do s0 <- loadSnapshot (snapshot m);
  let step := Duration_Seconds (Time_Sub nw (_lastTime s0)) in
  let r1 := Float64bits (EWMA_Rate (a1 m)) in
  let r5 := Float64bits (EWMA_Rate (a5 m)) in
  let r15 := Float64bits (EWMA_Rate (a15 m)) in
  run (if (0 <? sub)%float
       then modifySnapshot (snapshot m)
              (fun s =>
                 set_rateMean
                   (Float64bits (float64_of_int64 (count s) / sub)%float) s)
       else ret tt);
  run (if (0 <? step)%float
       then modifySnapshot (snapshot m)
              (fun s =>
                 set_rateStep
                   (Float64bits
                      (float64_of_int64
                         (int64_sub (count s) (_lastCount s)) / step)%float)
                   s)
       else ret tt);
  run modifySnapshot (snapshot m) (set_rate1 r1);
  run modifySnapshot (snapshot m) (set_rate5 r5);
  run modifySnapshot (snapshot m) (set_rate15 r15);
  run modifySnapshot (snapshot m) (fun s => set_lastCount (count s) s);
  modifySnapshot (snapshot m) (set_lastTime nw).

Definition StandardMeter_RateStep (p : loc) (nw : Time) : M float :=
  run updateSnapshotOnStep p nw;
  do m <- loadMeter p;
  do s <- loadSnapshot (snapshot m);
  ret (Float64frombits (rateStep s)).

(** [Snapshot]: the copy is a new object; the fields that the composite
    literal does not name have their zero value. *)
Definition StandardMeter_Snapshot (p : loc) (nw : Time) : M Meter :=
  run updateSnapshotOnStep p nw;
  do m <- loadMeter p;
  do s <- loadSnapshot (snapshot m);
  do q <- allocSnapshot
            {| count := count s; _lastCount := 0;
               rate1 := rate1 s; rate5 := rate5 s; rate15 := rate15 s;
               rateMean := rateMean s; rateStep := 0;
               _lastTime := 0 |};
  ret (MSnapshot q).

(** [tick]: the argument [now] is not used by the code; [nw] is the clock
    reading of [updateSnapshot]. *)
Definition StandardMeter_tick (p : loc) (now nw : Time) : M unit :=
  run modifyMeter p (fun m => set_a1 (EWMA_Tick (a1 m)) m);
  run modifyMeter p (fun m => set_a5 (EWMA_Tick (a5 m)) m);
  run modifyMeter p (fun m => set_a15 (EWMA_Tick (a15 m)) m);
  updateSnapshot p nw.

(** [NewMeter]: launching the goroutine [arbiter.tick] is recorded by the
    flag [started]; the loop itself is [arbiter_tick]. *)
Definition NewMeter (Exp : float -> float) (nw : Time) : M Meter :=
  do disabled <- getUseNilMetrics;
  if disabled then ret MNil
  else
    do p <- newStandardMeter Exp nw;
    do a <- getArbiter;
    let a' := {| started := started a; meters := {[p]} ∪ meters a |} in
    run putArbiter
          (if negb (started a')
           then {| started := true; meters := meters a' |}
           else a');
    ret (MStandard p).

(** ** The interface Meter: dynamic dispatch *)

Definition Meter_Count (x : Meter) : M Z :=
  match x with
  | MStandard p => StandardMeter_Count p
  | MSnapshot q => MeterSnapshot_Count q
  | MNil => NilMeter_Count
  end.

Definition Meter_Mark (x : Meter) (n : Z) (nw : Time) : M unit :=
  match x with
  | MStandard p => StandardMeter_Mark p n nw
  | MSnapshot q => MeterSnapshot_Mark q n
  | MNil => NilMeter_Mark n
  end.

Definition Meter_Rate1 (x : Meter) : M float :=
  match x with
  | MStandard p => StandardMeter_Rate1 p
  | MSnapshot q => MeterSnapshot_Rate1 q
  | MNil => NilMeter_Rate1
  end.

Definition Meter_Rate5 (x : Meter) : M float :=
  match x with
  | MStandard p => StandardMeter_Rate5 p
  | MSnapshot q => MeterSnapshot_Rate5 q
  | MNil => NilMeter_Rate5
  end.

Definition Meter_Rate15 (x : Meter) : M float :=
  match x with
  | MStandard p => StandardMeter_Rate15 p
  | MSnapshot q => MeterSnapshot_Rate15 q
  | MNil => NilMeter_Rate15
  end.

Definition Meter_RateMean (x : Meter) : M float :=
  match x with
  | MStandard p => StandardMeter_RateMean p
  | MSnapshot q => MeterSnapshot_RateMean q
  | MNil => NilMeter_RateMean
  end.

Definition Meter_RateStep (x : Meter) (nw : Time) : M float :=
  match x with
  | MStandard p => StandardMeter_RateStep p nw
  | MSnapshot q => MeterSnapshot_RateStep q
  | MNil => NilMeter_RateStep
  end.

Definition Meter_Snapshot (x : Meter) (nw : Time) : M Meter :=
  match x with
  | MStandard p => StandardMeter_Snapshot p nw
  | MSnapshot q => MeterSnapshot_Snapshot q
  | MNil => NilMeter_Snapshot
  end.

Definition Meter_Stop (x : Meter) : M unit :=
  match x with
  | MStandard p => StandardMeter_Stop p
  | MSnapshot q => MeterSnapshot_Stop q
  | MNil => NilMeter_Stop
  end.

(** ** meterArbiter *)

(** [tickMeters]: one pass over the registered meters.  Go leaves the
    iteration order of a map unspecified, so the pass takes the order chosen
    by the runtime as an argument, each meter with the clock reading of its
    tick.  The code has no [recover]: a panic ends the pass. *)
Fixpoint tickMeters (nw : Time) (order : list (loc * Time)) : M unit :=
  match order with
  | [] => ret tt
  | (p, t) :: rest => run StandardMeter_tick p nw t; tickMeters nw rest
  end.

(** The runtime iterates over the registered set. *)
Definition enumerates (order : list (loc * Time)) (w : world) : Prop :=
  order.*1 ≡ₚ elements (meters (arbiter w)).

(** [tick]: the loop never returns; it is run here on a finite prefix of
    the events of the ticker, each with the iteration order of its pass.
    The result [Ok] says that the loop is still running after the prefix. *)
Fixpoint arbiter_tick (events : list (Time * list (loc * Time))) : M unit :=
  match events with
  | [] => ret tt
  | (nw, order) :: rest => run tickMeters nw order; arbiter_tick rest
  end.

(** ** Sequences of operations on one StandardMeter *)

Inductive op :=
| OpMark (n : Z) (nw : Time)
| OpTick (now nw : Time)
| OpCount
| OpRate1
| OpRate5
| OpRate15
| OpRateMean
| OpRateStep (nw : Time)
| OpSnapshot (nw : Time)
| OpStop.

Definition run_op (p : loc) (o : op) : M unit :=
  match o with
  | OpMark n nw => StandardMeter_Mark p n nw
  | OpTick now nw => StandardMeter_tick p now nw
  | OpCount => do _ <- StandardMeter_Count p; ret tt
  | OpRate1 => do _ <- StandardMeter_Rate1 p; ret tt
  | OpRate5 => do _ <- StandardMeter_Rate5 p; ret tt
  | OpRate15 => do _ <- StandardMeter_Rate15 p; ret tt
  | OpRateMean => do _ <- StandardMeter_RateMean p; ret tt
  | OpRateStep nw => do _ <- StandardMeter_RateStep p nw; ret tt
  | OpSnapshot nw => do _ <- StandardMeter_Snapshot p nw; ret tt
  | OpStop => StandardMeter_Stop p
  end.

Fixpoint run_ops (p : loc) (os : list op) : M unit :=
  match os with
  | [] => ret tt
  | o :: rest => run run_op p o; run_ops p rest
  end.

(** * Definitions used in the statements *)

(** ** Updates of the world *)

Definition setS (q : loc) (s : MeterSnapshot) (w : world) : world :=
  {| snapshots := <[q := s]> (snapshots w);
     standardMeters := standardMeters w;
     arbiter := arbiter w;
     UseNilMetrics := UseNilMetrics w |}.

Definition setM (p : loc) (m : StandardMeter) (w : world) : world :=
  {| snapshots := snapshots w;
     standardMeters := <[p := m]> (standardMeters w);
     arbiter := arbiter w;
     UseNilMetrics := UseNilMetrics w |}.

Definition setA (a : meterArbiter) (w : world) : world :=
  {| snapshots := snapshots w;
     standardMeters := standardMeters w;
     arbiter := a;
     UseNilMetrics := UseNilMetrics w |}.

(** The meter at [p] is allocated, and so is the snapshot it points to. *)
Definition points_to (w : world) (p : loc) (m : StandardMeter)
  (s : MeterSnapshot) : Prop :=
  standardMeters w !! p = Some m /\ snapshots w !! snapshot m = Some s.

(** ** What each operation does to a well-formed meter *)

(** The rates published by [updateSnapshot]. *)
Definition publish (m : StandardMeter) (nw : Time) (s : MeterSnapshot)
  : MeterSnapshot :=
  set_rateMean
    (Float64bits
       (float64_of_int64 (count s)
        / Duration_Seconds (Time_Sub nw (startTime m)))%float)
    (set_rate15 (Float64bits (EWMA_Rate (a15 m)))
       (set_rate5 (Float64bits (EWMA_Rate (a5 m)))
          (set_rate1 (Float64bits (EWMA_Rate (a1 m))) s))).

Definition mark_meter (n : Z) (m : StandardMeter) : StandardMeter :=
  set_a15 (EWMA_Update n (a15 m))
    (set_a5 (EWMA_Update n (a5 m)) (set_a1 (EWMA_Update n (a1 m)) m)).

Definition tick_meter (m : StandardMeter) : StandardMeter :=
  set_a15 (EWMA_Tick (a15 m))
    (set_a5 (EWMA_Tick (a5 m)) (set_a1 (EWMA_Tick (a1 m)) m)).

(** The refresh made by [updateSnapshotOnStep]. *)
Definition step_snapshot (m : StandardMeter) (nw : Time) (s : MeterSnapshot)
  : MeterSnapshot :=
  let sub := Duration_Seconds (Time_Sub nw (startTime m)) in
  let step := Duration_Seconds (Time_Sub nw (_lastTime s)) in
  {| count := count s;
     _lastCount := count s;
     rate1 := Float64bits (EWMA_Rate (a1 m));
     rate5 := Float64bits (EWMA_Rate (a5 m));
     rate15 := Float64bits (EWMA_Rate (a15 m));
     rateMean := if (0 <? sub)%float
                 then Float64bits (float64_of_int64 (count s) / sub)%float
                 else rateMean s;
     rateStep := if (0 <? step)%float
                 then Float64bits
                        (float64_of_int64
                           (int64_sub (count s) (_lastCount s)) / step)%float
                 else rateStep s;
     _lastTime := nw |}.

(** The copy made by [Snapshot]. *)
Definition copy_of (s : MeterSnapshot) : MeterSnapshot :=
  {| count := count s; _lastCount := 0;
     rate1 := rate1 s; rate5 := rate5 s; rate15 := rate15 s;
     rateMean := rateMean s; rateStep := 0;
     _lastTime := 0 |}.

(** ** Operations as transitions of the meter and its snapshot *)

Definition op_meter (o : op) (m : StandardMeter) : StandardMeter :=
  match o with
  | OpMark n _ => if stopped m =? 1 then m else mark_meter n m
  | OpTick _ _ => tick_meter m
  | OpStop => set_stopped 1 m
  | _ => m
  end.

Definition op_snapshot (o : op) (m : StandardMeter) (s : MeterSnapshot)
  : MeterSnapshot :=
  match o with
  | OpMark n nw =>
      if stopped m =? 1 then s
      else publish (mark_meter n m) nw (set_count (int64_add (count s) n) s)
  | OpTick _ nw => publish (tick_meter m) nw s
  | OpRateStep nw | OpSnapshot nw => step_snapshot m nw s
  | _ => s
  end.

Fixpoint ops_meter (os : list op) (m : StandardMeter) (s : MeterSnapshot)
  : StandardMeter :=
  match os with
  | [] => m
  | o :: rest => ops_meter rest (op_meter o m) (op_snapshot o m s)
  end.

Fixpoint ops_snapshot (os : list op) (m : StandardMeter) (s : MeterSnapshot)
  : MeterSnapshot :=
  match os with
  | [] => s
  | o :: rest => ops_snapshot rest (op_meter o m) (op_snapshot o m s)
  end.

(** Every snapshot object other than the one at [q0] is left as it is. *)
Definition frame (q0 : loc) (w w' : world) : Prop :=
  forall q, q <> q0 -> is_Some (snapshots w !! q) ->
            snapshots w' !! q = snapshots w !! q.

(** The events marked by a sequence of operations. *)
Fixpoint marked (os : list op) : Z :=
  match os with
  | [] => 0
  | OpMark n _ :: rest => n + marked rest
  | _ :: rest => marked rest
  end.

Definition is_stop (o : op) : bool :=
  match o with OpStop => true | _ => false end.

(** ** Construction *)

Definition zero_snapshot (nw : Time) : MeterSnapshot :=
  {| count := 0; _lastCount := 0;
     rate1 := 0; rate5 := 0; rate15 := 0;
     rateMean := 0; rateStep := 0;
     _lastTime := nw |}.

Definition new_meter (Exp : float -> float) (nw : Time) (q : loc)
  : StandardMeter :=
  {| snapshot := q;
     a1 := NewEWMA1 Exp; a5 := NewEWMA5 Exp; a15 := NewEWMA15 Exp;
     startTime := nw;
     stopped := 0 |}.

(** ** Concrete worlds *)

Definition empty_world : world :=
  {| snapshots := ∅; standardMeters := ∅;
     arbiter := {| started := false; meters := ∅ |};
     UseNilMetrics := false |}.

(** A stand-in for [math.Exp] in closed examples. *)
Definition Exp0 (x : float) : float := 1%float.

(** The world after [NewMeter()] at clock reading 100: one live meter, at
    address 1, with its snapshot at address 1. *)
Definition one_meter_world : world := snd (NewMeter Exp0 100 empty_world).

(** The snapshot object of the meter at [p], when both are allocated. *)
Definition snapshot_of (w : world) (p : loc) : option MeterSnapshot :=
  match standardMeters w !! p with
  | Some m => snapshots w !! snapshot m
  | None => None
  end.

(** ** The arbiter's pass *)

Definition meter_ok (w : world) (p : loc) : Prop := is_Some (snapshot_of w p).

(** Every registered meter is allocated, with its snapshot. *)
Definition registered_ok (w : world) : Prop :=
  forall p, p ∈ meters (arbiter w) -> meter_ok w p.

(** A world that the exported type [StandardMeter] allows: the meter at
    address 1 is a zero value, whose snapshot pointer is [nil]; the meter at
    address 2 is as [newStandardMeter] builds it.  Both are registered. *)
Definition zero_StandardMeter : StandardMeter :=
  {| snapshot := nilptr;
     a1 := NewEWMA 0; a5 := NewEWMA 0; a15 := NewEWMA 0;
     startTime := 0;
     stopped := 0 |}.

Definition broken_world : world :=
  {| snapshots := {[2%nat := zero_snapshot 100]};
     standardMeters :=
       {[1%nat := zero_StandardMeter; 2%nat := new_meter Exp0 100 2%nat]};
     arbiter := {| started := true; meters := {[1%nat; 2%nat]} |};
     UseNilMetrics := false |}.

(** The world after two calls of [NewMeter()]: meters at addresses 1 and 2. *)
Definition two_meter_world : world := snd (NewMeter Exp0 150 one_meter_world).

(** ** The float64 encoding *)

Definition sign_bit (s : bool) : Z := if s then 1 else 0.

(** ** The exact effect of an operation *)

Definition op_world (p : loc) (o : op) (m : StandardMeter)
  (s : MeterSnapshot) (w : world) : world :=
  match o with
  | OpMark _ _ | OpTick _ _ =>
      setS (snapshot m) (op_snapshot o m s) (setM p (op_meter o m) w)
  | OpRateStep nw => setS (snapshot m) (step_snapshot m nw s) w
  | OpSnapshot nw =>
      let w1 := setS (snapshot m) (step_snapshot m nw s) w in
      setS (fresh ({[nilptr]} ∪ dom (snapshots w1)))
        (copy_of (step_snapshot m nw s)) w1
  | OpStop =>
      if negb (stopped m =? 1)
      then setA {| started := started (arbiter w);
                   meters := meters (arbiter w) ∖ {[p]} |}
             (setM p (set_stopped 1 m) w)
      else setM p (set_stopped 1 m) w
  | _ => w
  end.

(** ** Well-formed worlds *)

(** Every meter points to an allocated snapshot, no two meters share a
    snapshot, and every registered meter is allocated. *)
Definition wf_world (w : world) : Prop :=
  (forall p m, standardMeters w !! p = Some m ->
               is_Some (snapshots w !! snapshot m)) /\
  (forall p p' m m',
      standardMeters w !! p = Some m -> standardMeters w !! p' = Some m' ->
      snapshot m = snapshot m' -> p = p') /\
  (forall p, p ∈ meters (arbiter w) -> is_Some (standardMeters w !! p)).

(** The package before any meter is built. *)
Definition initial (w : world) : Prop :=
  snapshots w = ∅ /\ standardMeters w = ∅ /\ meters (arbiter w) = ∅.

(** What a program can do: build a meter, call a method of a meter it holds
    (or have it ticked), and let the arbiter make a pass. *)
Inductive action :=
| ANewMeter (nw : Time)
| AOp (p : loc) (o : op)
| APass (nw : Time) (order : list (loc * Time)).

Definition run_action (Exp : float -> float) (a : action) : M unit :=
  match a with
  | ANewMeter nw => do _ <- NewMeter Exp nw; ret tt
  | AOp p o => run_op p o
  | APass nw order => tickMeters nw order
  end.

Definition admissible (a : action) (w : world) : Prop :=
  match a with
  | ANewMeter _ => True
  | AOp p _ => is_Some (standardMeters w !! p)
  | APass _ order => enumerates order w
  end.

Inductive reachable (Exp : float -> float) : world -> Prop :=
| reachable_initial w : initial w -> reachable Exp w
| reachable_step w a w' :
    reachable Exp w -> admissible a w ->
    run_action Exp a w = (Ok tt, w') ->
    reachable Exp w'.

(** ** Calls through the interface *)

Inductive call :=
| CCount
| CMark (n : Z) (nw : Time)
| CRate1
| CRate5
| CRate15
| CRateMean
| CRateStep (nw : Time)
| CSnapshot (nw : Time)
| CStop.

Definition Meter_call (x : Meter) (c : call) : M unit :=
  match c with
  | CCount => do _ <- Meter_Count x; ret tt
  | CMark n nw => Meter_Mark x n nw
  | CRate1 => do _ <- Meter_Rate1 x; ret tt
  | CRate5 => do _ <- Meter_Rate5 x; ret tt
  | CRate15 => do _ <- Meter_Rate15 x; ret tt
  | CRateMean => do _ <- Meter_RateMean x; ret tt
  | CRateStep nw => do _ <- Meter_RateStep x nw; ret tt
  | CSnapshot nw => do _ <- Meter_Snapshot x nw; ret tt
  | CStop => Meter_Stop x
  end.

Fixpoint Meter_calls (x : Meter) (cs : list call) : M unit :=
  match cs with
  | [] => ret tt
  | c :: rest => run Meter_call x c; Meter_calls x rest
  end.

Definition disabled_world : world :=
  {| snapshots := ∅; standardMeters := ∅;
     arbiter := {| started := false; meters := ∅ |};
     UseNilMetrics := true |}.

(** * Verification *)

(** ** Arithmetic of [wrap64] *)

Lemma wrap64_id z : is_int64 z -> wrap64 z = z.
Proof.
  unfold is_int64, min_int64, max_int64, wrap64. intros H.
  rewrite Z.mod_small; lia.
Qed.

Lemma wrap64_range z : is_int64 (wrap64 z).
Proof.
  unfold is_int64, min_int64, max_int64, wrap64.
  pose proof (Z.mod_pos_bound (z + 2^63) (2^64)). lia.
Qed.

Lemma wrap64_add_l a b : wrap64 (wrap64 a + b) = wrap64 (a + b).
Proof.
  unfold wrap64.
  replace ((a + 2^63) mod 2^64 - 2^63 + b + 2^63)
    with ((a + 2^63) mod 2^64 + b) by lia.
  rewrite Zplus_mod_idemp_l. f_equal. f_equal. lia.
Qed.

(** ** Symbolic execution of computations *)

Lemma bind_Ok {A B} (c : M A) (k : A -> M B) w a w' :
  c w = (Ok a, w') -> bind c k w = k a w'.
Proof. intros H. unfold bind. now rewrite H. Qed.

Lemma bind_Panic {A B} (c : M A) (k : A -> M B) w msg w' :
  c w = (Panic msg, w') -> bind c k w = (Panic msg, w').
Proof. intros H. unfold bind. now rewrite H. Qed.

Lemma bind_Ok_inv {A B} (c : M A) (k : A -> M B) w b w' :
  bind c k w = (Ok b, w') ->
  exists a w1, c w = (Ok a, w1) /\ k a w1 = (Ok b, w').
Proof.
  unfold bind. destruct (c w) as [[a|msg] w1]; intros H.
  - now exists a, w1.
  - discriminate.
Qed.

Lemma loadMeter_Some w p m :
  standardMeters w !! p = Some m -> loadMeter p w = (Ok m, w).
Proof. intros H. unfold loadMeter. now rewrite H. Qed.

Lemma loadMeter_None w p :
  standardMeters w !! p = None -> loadMeter p w = (Panic nil_dereference, w).
Proof. intros H. unfold loadMeter. now rewrite H. Qed.

Lemma loadMeter_Ok_inv w p m w' :
  loadMeter p w = (Ok m, w') -> standardMeters w !! p = Some m /\ w' = w.
Proof.
  unfold loadMeter. destruct (standardMeters w !! p); intros H; now inversion H.
Qed.

Lemma loadSnapshot_Some w q s :
  snapshots w !! q = Some s -> loadSnapshot q w = (Ok s, w).
Proof. intros H. unfold loadSnapshot. now rewrite H. Qed.

Lemma loadSnapshot_None w q :
  snapshots w !! q = None -> loadSnapshot q w = (Panic nil_dereference, w).
Proof. intros H. unfold loadSnapshot. now rewrite H. Qed.

Lemma loadSnapshot_Ok_inv w q s w' :
  loadSnapshot q w = (Ok s, w') -> snapshots w !! q = Some s /\ w' = w.
Proof.
  unfold loadSnapshot. destruct (snapshots w !! q); intros H; now inversion H.
Qed.

Lemma modifySnapshot_Some w q s f :
  snapshots w !! q = Some s ->
  modifySnapshot q f w = (Ok tt, setS q (f s) w).
Proof.
  intros H. unfold modifySnapshot.
  now rewrite (bind_Ok _ _ _ _ _ (loadSnapshot_Some _ _ _ H)).
Qed.

Lemma modifyMeter_Some w p m f :
  standardMeters w !! p = Some m ->
  modifyMeter p f w = (Ok tt, setM p (f m) w).
Proof.
  intros H. unfold modifyMeter.
  now rewrite (bind_Ok _ _ _ _ _ (loadMeter_Some _ _ _ H)).
Qed.

Lemma setS_setS q s1 s2 w : setS q s2 (setS q s1 w) = setS q s2 w.
Proof. unfold setS; simpl. now rewrite insert_insert_eq. Qed.

Lemma setM_setM p m1 m2 w : setM p m2 (setM p m1 w) = setM p m2 w.
Proof. unfold setM; simpl. now rewrite insert_insert_eq. Qed.

Lemma setS_id q s w : snapshots w !! q = Some s -> setS q s w = w.
Proof.
  intros H. unfold setS. rewrite (insert_id _ _ _ H). now destruct w.
Qed.

Lemma setM_id p m w : standardMeters w !! p = Some m -> setM p m w = w.
Proof.
  intros H. unfold setM. rewrite (insert_id _ _ _ H). now destruct w.
Qed.

Ltac lookup_solve :=
  simpl; rewrite ?lookup_insert_eq; first [eassumption | reflexivity].

Ltac exec1 :=
  first
    [ apply loadMeter_Some; lookup_solve
    | apply loadSnapshot_Some; lookup_solve
    | apply modifySnapshot_Some; lookup_solve
    | apply modifyMeter_Some; lookup_solve
    | reflexivity ].

Ltac exec := repeat (erewrite bind_Ok by exec1; cbv beta zeta).

(** ** What each operation does to a well-formed meter *)

Lemma StandardMeter_Count_spec w p m s :
  points_to w p m s -> StandardMeter_Count p w = (Ok (count s), w).
Proof. intros [Hm Hs]. unfold StandardMeter_Count. exec. reflexivity. Qed.

Lemma StandardMeter_Rate1_spec w p m s :
  points_to w p m s ->
  StandardMeter_Rate1 p w = (Ok (Float64frombits (rate1 s)), w).
Proof. intros [Hm Hs]. unfold StandardMeter_Rate1. exec. reflexivity. Qed.

Lemma StandardMeter_Rate5_spec w p m s :
  points_to w p m s ->
  StandardMeter_Rate5 p w = (Ok (Float64frombits (rate5 s)), w).
Proof. intros [Hm Hs]. unfold StandardMeter_Rate5. exec. reflexivity. Qed.

Lemma StandardMeter_Rate15_spec w p m s :
  points_to w p m s ->
  StandardMeter_Rate15 p w = (Ok (Float64frombits (rate15 s)), w).
Proof. intros [Hm Hs]. unfold StandardMeter_Rate15. exec. reflexivity. Qed.

Lemma StandardMeter_RateMean_spec w p m s :
  points_to w p m s ->
  StandardMeter_RateMean p w = (Ok (Float64frombits (rateMean s)), w).
Proof. intros [Hm Hs]. unfold StandardMeter_RateMean. exec. reflexivity. Qed.

Lemma updateSnapshot_spec w p m s nw :
  points_to w p m s ->
  updateSnapshot p nw w = (Ok tt, setS (snapshot m) (publish m nw s) w).
Proof.
  intros [Hm Hs]. unfold updateSnapshot.
  erewrite bind_Ok by exec1. cbv beta zeta.
  erewrite bind_Ok by (eapply StandardMeter_Count_spec; split; eassumption).
  exec. erewrite modifySnapshot_Some by lookup_solve.
  rewrite !setS_setS. reflexivity.
Qed.

Lemma StandardMeter_Mark_stopped w p m n nw :
  standardMeters w !! p = Some m -> stopped m = 1 ->
  StandardMeter_Mark p n nw w = (Ok tt, w).
Proof.
  intros Hm Hst. unfold StandardMeter_Mark. exec. now rewrite Hst.
Qed.

Lemma StandardMeter_Mark_live w p m s n nw :
  points_to w p m s -> stopped m <> 1 ->
  StandardMeter_Mark p n nw w =
  (Ok tt,
   setS (snapshot m)
     (publish (mark_meter n m) nw (set_count (int64_add (count s) n) s))
     (setM p (mark_meter n m) w)).
Proof.
  intros [Hm Hs] Hst. unfold StandardMeter_Mark. exec.
  destruct (Z.eqb_spec (stopped m) 1) as [E|_]; [contradiction|].
  exec.
  erewrite updateSnapshot_spec; [|split; [lookup_solve|lookup_solve]].
  simpl snapshot.
  unfold setS, setM; simpl. rewrite !insert_insert_eq. reflexivity.
Qed.

Lemma StandardMeter_tick_spec w p m s now nw :
  points_to w p m s ->
  StandardMeter_tick p now nw w =
  (Ok tt,
   setS (snapshot m) (publish (tick_meter m) nw s) (setM p (tick_meter m) w)).
Proof.
  intros [Hm Hs]. unfold StandardMeter_tick. exec.
  erewrite updateSnapshot_spec; [|split; [lookup_solve|lookup_solve]].
  simpl snapshot.
  unfold setS, setM; simpl. rewrite !insert_insert_eq. reflexivity.
Qed.

Lemma updateSnapshotOnStep_spec w p m s nw :
  points_to w p m s ->
  updateSnapshotOnStep p nw w =
  (Ok tt, setS (snapshot m) (step_snapshot m nw s) w).
Proof.
  intros [Hm Hs]. unfold updateSnapshotOnStep. exec.
  unfold step_snapshot.
  destruct (0 <? Duration_Seconds (Time_Sub nw (startTime m)))%float;
    destruct (0 <? Duration_Seconds (Time_Sub nw (_lastTime s)))%float;
    exec;
    (erewrite modifySnapshot_Some by lookup_solve);
    rewrite ?setS_setS; reflexivity.
Qed.

Lemma StandardMeter_RateStep_spec w p m s nw :
  points_to w p m s ->
  StandardMeter_RateStep p nw w =
  (Ok (Float64frombits (rateStep (step_snapshot m nw s))),
   setS (snapshot m) (step_snapshot m nw s) w).
Proof.
  intros Hp. unfold StandardMeter_RateStep.
  erewrite bind_Ok by (apply updateSnapshotOnStep_spec; eassumption).
  destruct Hp as [Hm Hs]. exec. reflexivity.
Qed.

Lemma StandardMeter_Snapshot_spec w p m s nw :
  points_to w p m s ->
  let w1 := setS (snapshot m) (step_snapshot m nw s) w in
  let q := fresh ({[nilptr]} ∪ dom (snapshots w1)) in
  StandardMeter_Snapshot p nw w =
  (Ok (MSnapshot q), setS q (copy_of (step_snapshot m nw s)) w1).
Proof.
  intros Hp w1 q. unfold StandardMeter_Snapshot.
  erewrite bind_Ok by (apply updateSnapshotOnStep_spec; eassumption).
  destruct Hp as [Hm Hs]. exec. reflexivity.
Qed.

Lemma StandardMeter_Stop_spec w p m :
  standardMeters w !! p = Some m ->
  StandardMeter_Stop p w =
  (Ok tt,
   if negb (stopped m =? 1)
   then setA {| started := started (arbiter w);
                meters := meters (arbiter w) ∖ {[p]} |}
          (setM p (set_stopped 1 m) w)
   else setM p (set_stopped 1 m) w).
Proof.
  intros Hm. unfold StandardMeter_Stop. exec.
  destruct (negb (stopped m =? 1)); reflexivity.
Qed.

(** ** Operations as transitions of the meter and its snapshot *)

Lemma frame_refl q0 w : frame q0 w w.
Proof. now intros q _ _. Qed.

Lemma frame_trans q0 w1 w2 w3 :
  frame q0 w1 w2 -> frame q0 w2 w3 -> frame q0 w1 w3.
Proof.
  intros H12 H23 q Hq Hs. rewrite <- (H12 q Hq Hs).
  apply H23; [assumption|]. now rewrite (H12 q Hq Hs).
Qed.

Lemma frame_setS q0 s w : frame q0 w (setS q0 s w).
Proof. intros q Hq _. simpl. now rewrite lookup_insert_ne. Qed.

Lemma fresh_snapshot_not_allocated (h : gmap loc MeterSnapshot) :
  h !! fresh ({[nilptr]} ∪ dom h) = None.
Proof.
  apply not_elem_of_dom.
  pose proof (is_fresh ({[nilptr]} ∪ dom h)) as H. set_solver.
Qed.

Lemma fresh_meter_not_allocated (h : gmap loc StandardMeter) :
  h !! fresh ({[nilptr]} ∪ dom h) = None.
Proof.
  apply not_elem_of_dom.
  pose proof (is_fresh ({[nilptr]} ∪ dom h)) as H. set_solver.
Qed.

Lemma fresh_not_nil (X : gset loc) : fresh ({[nilptr]} ∪ X) <> nilptr.
Proof. pose proof (is_fresh ({[nilptr]} ∪ X)) as H. set_solver. Qed.

Lemma op_meter_snapshot o m : snapshot (op_meter o m) = snapshot m.
Proof. destruct o; simpl; try reflexivity. now destruct (stopped m =? 1). Qed.

Lemma ops_meter_snapshot os m s : snapshot (ops_meter os m s) = snapshot m.
Proof.
  revert m s. induction os as [|o os IH]; intros m s; simpl; [reflexivity|].
  now rewrite IH, op_meter_snapshot.
Qed.

Lemma points_to_update w p m m' s' :
  snapshot m' = snapshot m ->
  points_to (setS (snapshot m) s' (setM p m' w)) p m' s'.
Proof.
  intros E. split; simpl; [apply lookup_insert_eq|].
  rewrite E. apply lookup_insert_eq.
Qed.

Lemma run_op_ok w p m s o :
  points_to w p m s ->
  exists w',
    run_op p o w = (Ok tt, w') /\
    points_to w' p (op_meter o m) (op_snapshot o m s) /\
    frame (snapshot m) w w'.
Proof.
  intros Hp. pose proof Hp as [Hm Hs].
  assert (Hread : exists w', (Ok tt, w) = (Ok tt, w') /\
                   points_to w' p m s /\ frame (snapshot m) w w').
  { exists w. split; [reflexivity|]. split; [assumption|apply frame_refl]. }
  destruct o as [n nw|now nw| | | | | |nw|nw|]; simpl.
  - destruct (Z.eqb_spec (stopped m) 1) as [E|E].
    + rewrite (StandardMeter_Mark_stopped _ _ _ _ _ Hm E). exact Hread.
    + rewrite (StandardMeter_Mark_live _ _ _ _ _ _ Hp E).
      eexists; split; [reflexivity|]. split.
      * now apply points_to_update.
      * intros q Hq _. simpl. now rewrite lookup_insert_ne.
  - rewrite (StandardMeter_tick_spec _ _ _ _ _ _ Hp).
    eexists; split; [reflexivity|]. split.
    + now apply points_to_update.
    + intros q Hq _. simpl. now rewrite lookup_insert_ne.
  - rewrite (bind_Ok _ _ _ _ _ (StandardMeter_Count_spec _ _ _ _ Hp)).
    exact Hread.
  - rewrite (bind_Ok _ _ _ _ _ (StandardMeter_Rate1_spec _ _ _ _ Hp)).
    exact Hread.
  - rewrite (bind_Ok _ _ _ _ _ (StandardMeter_Rate5_spec _ _ _ _ Hp)).
    exact Hread.
  - rewrite (bind_Ok _ _ _ _ _ (StandardMeter_Rate15_spec _ _ _ _ Hp)).
    exact Hread.
  - rewrite (bind_Ok _ _ _ _ _ (StandardMeter_RateMean_spec _ _ _ _ Hp)).
    exact Hread.
  - rewrite (bind_Ok _ _ _ _ _ (StandardMeter_RateStep_spec _ _ _ _ _ Hp)).
    eexists; split; [reflexivity|]. split.
    + split; simpl; [assumption|apply lookup_insert_eq].
    + apply frame_setS.
  - rewrite (bind_Ok _ _ _ _ _ (StandardMeter_Snapshot_spec _ _ _ _ _ Hp)).
    eexists; split; [reflexivity|].
    set (w1 := setS (snapshot m) (step_snapshot m nw s) w).
    assert (Hq : snapshots w1 !! fresh ({[nilptr]} ∪ dom (snapshots w1)) = None)
      by apply fresh_snapshot_not_allocated.
    assert (Hne : fresh ({[nilptr]} ∪ dom (snapshots w1)) <> snapshot m).
    { intros E. rewrite E in Hq. unfold w1 in Hq. simpl in Hq.
      rewrite lookup_insert_eq in Hq. discriminate. }
    split.
    + split; simpl; [assumption|].
      rewrite lookup_insert_ne by assumption. apply lookup_insert_eq.
    + intros q Hq1 Hq2. simpl.
      rewrite lookup_insert_ne.
      * now rewrite lookup_insert_ne.
      * intros E. subst q. unfold w1 in Hq. simpl in Hq.
        rewrite lookup_insert_ne in Hq by (intros E; now apply Hq1).
        rewrite Hq in Hq2. now destruct Hq2.
  - rewrite (StandardMeter_Stop_spec _ _ _ Hm).
    eexists; split; [reflexivity|].
    destruct (negb (stopped m =? 1)); split;
      try (split; simpl; [apply lookup_insert_eq|assumption]);
      now intros q _ _.
Qed.

Lemma run_ops_ok w p m s os :
  points_to w p m s ->
  exists w',
    run_ops p os w = (Ok tt, w') /\
    points_to w' p (ops_meter os m s) (ops_snapshot os m s) /\
    frame (snapshot m) w w'.
Proof.
  revert w m s. induction os as [|o os IH]; intros w m s Hp; simpl.
  - exists w. split; [reflexivity|]. split; [assumption|apply frame_refl].
  - destruct (run_op_ok w p m s o Hp) as (w1 & Hrun & Hp1 & Hf1).
    destruct (IH w1 _ _ Hp1) as (w2 & Hrun2 & Hp2 & Hf2).
    exists w2. rewrite (bind_Ok _ _ _ _ _ Hrun). split; [assumption|].
    split; [assumption|].
    rewrite op_meter_snapshot in Hf2. eapply frame_trans; eassumption.
Qed.

Lemma op_meter_stopped o m : stopped m = 1 -> stopped (op_meter o m) = 1.
Proof.
  intros H. destruct o; simpl; try assumption; try reflexivity.
  now rewrite H.
Qed.

Lemma op_snapshot_count_stopped o m s :
  stopped m = 1 -> count (op_snapshot o m s) = count s.
Proof. intros H. destruct o; simpl; try reflexivity. now rewrite H. Qed.

Lemma ops_stopped os m s :
  stopped m = 1 ->
  stopped (ops_meter os m s) = 1 /\ count (ops_snapshot os m s) = count s.
Proof.
  revert m s. induction os as [|o os IH]; intros m s H; simpl; [easy|].
  destruct (IH (op_meter o m) (op_snapshot o m s) (op_meter_stopped o m H))
    as [H1 H2].
  split; [assumption|]. now rewrite H2, op_snapshot_count_stopped.
Qed.

Lemma op_meter_live o m :
  is_stop o = false -> stopped m <> 1 -> stopped (op_meter o m) <> 1.
Proof.
  intros Ho H. destruct o; simpl; try assumption; try discriminate.
  now destruct (stopped m =? 1).
Qed.

Lemma publish_count m nw s : count (publish m nw s) = count s.
Proof. reflexivity. Qed.

Lemma step_snapshot_count m nw s : count (step_snapshot m nw s) = count s.
Proof. reflexivity. Qed.

Lemma op_snapshot_count_live o m s :
  stopped m <> 1 ->
  count (op_snapshot o m s) = 
  match o with OpMark n _ => wrap64 (count s + n) | _ => count s end.
Proof.
  intros H. destruct o; simpl; try reflexivity.
  now destruct (Z.eqb_spec (stopped m) 1).
Qed.

Lemma op_snapshot_count_other o m s :
  (forall n nw, o <> OpMark n nw) -> count (op_snapshot o m s) = count s.
Proof.
  intros H. destruct o; simpl; try reflexivity. now destruct (H n nw).
Qed.

Lemma ops_count_live os m s :
  forallb (fun o => negb (is_stop o)) os = true ->
  stopped m <> 1 -> is_int64 (count s) ->
  count (ops_snapshot os m s) = wrap64 (count s + marked os).
Proof.
  revert m s. induction os as [|o os IH]; intros m s Hns Hlive Hc; simpl.
  - rewrite Z.add_0_r. symmetry. now apply wrap64_id.
  - simpl in Hns. apply andb_prop in Hns as [Ho Hos].
    apply negb_true_iff in Ho.
    rewrite IH; [|assumption|now apply op_meter_live|].
    + rewrite (op_snapshot_count_live _ _ _ Hlive).
      destruct o; try reflexivity.
      rewrite wrap64_add_l. f_equal. lia.
    + rewrite (op_snapshot_count_live _ _ _ Hlive).
      destruct o; try assumption. apply wrap64_range.
Qed.

(** ** Construction *)

Lemma NewMeter_spec Exp nw w :
  UseNilMetrics w = false ->
  let q := fresh ({[nilptr]} ∪ dom (snapshots w)) in
  let p := fresh ({[nilptr]} ∪ dom (standardMeters w)) in
  NewMeter Exp nw w =
  (Ok (MStandard p),
   setA {| started := true; meters := {[p]} ∪ meters (arbiter w) |}
     (setM p (new_meter Exp nw q) (setS q (zero_snapshot nw) w))).
Proof.
  intros Hnil q p. unfold NewMeter.
  erewrite bind_Ok by reflexivity. cbv beta. rewrite Hnil.
  unfold newStandardMeter.
  erewrite bind_Ok; [|erewrite bind_Ok by reflexivity; reflexivity].
  erewrite bind_Ok by reflexivity. cbv beta zeta.
  erewrite bind_Ok by reflexivity. cbv beta. simpl.
  destruct (started (arbiter w)); reflexivity.
Qed.

Lemma NewMeter_points_to Exp nw w :
  UseNilMetrics w = false ->
  exists p w1,
    NewMeter Exp nw w = (Ok (MStandard p), w1) /\
    points_to w1 p (new_meter Exp nw (fresh ({[nilptr]} ∪ dom (snapshots w))))
      (zero_snapshot nw).
Proof.
  intros Hnil. eexists _, _. split; [now apply NewMeter_spec|].
  split; simpl; apply lookup_insert_eq.
Qed.

Lemma NewMeter_nil Exp nw w :
  UseNilMetrics w = true -> NewMeter Exp nw w = (Ok MNil, w).
Proof.
  intros Hnil. unfold NewMeter.
  erewrite bind_Ok by reflexivity. cbv beta. now rewrite Hnil.
Qed.

(** A live meter obtained from [NewMeter]. *)
Lemma NewMeter_Ok_inv Exp nw w p w1 :
  NewMeter Exp nw w = (Ok (MStandard p), w1) ->
  points_to w1 p (new_meter Exp nw (fresh ({[nilptr]} ∪ dom (snapshots w))))
    (zero_snapshot nw).
Proof.
  intros H. destruct (UseNilMetrics w) eqn:Hnil.
  - rewrite (NewMeter_nil _ _ _ Hnil) in H. discriminate.
  - rewrite (NewMeter_spec _ _ _ Hnil) in H. inversion H; subst.
    split; simpl; apply lookup_insert_eq.
Qed.

Lemma StandardMeter_Snapshot_Ok_inv w p nw x w1 :
  StandardMeter_Snapshot p nw w = (Ok x, w1) ->
  exists m s, points_to w p m s.
Proof.
  unfold StandardMeter_Snapshot. intros H.
  apply bind_Ok_inv in H as (u & w2 & H & _).
  unfold updateSnapshotOnStep in H.
  apply bind_Ok_inv in H as (m & w3 & Hm & H).
  apply loadMeter_Ok_inv in Hm as [Hm ->].
  apply bind_Ok_inv in H as (s & w4 & Hs & _).
  apply loadSnapshot_Ok_inv in Hs as [Hs _].
  now exists m, s.
Qed.

Lemma one_meter_world_points_to :
  points_to one_meter_world 1%nat (new_meter Exp0 100 1%nat)
    (zero_snapshot 100).
Proof. split; vm_compute; reflexivity. Qed.

(** * The claims *)

(** C1: a value obtained from [StandardMeter.Snapshot()] is a
    [*MeterSnapshot], and [Mark(n)] on it panics with the message of
    [MeterSnapshot.Mark], for every [n], at every clock reading and in every
    state, and changes nothing. *)
Theorem C1_snapshot_Mark_panics w p nw x w1 :
  StandardMeter_Snapshot p nw w = (Ok x, w1) ->
  forall n t w2,
    Meter_Mark x n t w2 = (Panic "Mark called on a MeterSnapshot", w2).
Proof.
  intros H n t w2.
  destruct (StandardMeter_Snapshot_Ok_inv _ _ _ _ _ H) as (m & s & Hp).
  rewrite (StandardMeter_Snapshot_spec _ _ _ _ _ Hp) in H.
  inversion H; subst. reflexivity.
Qed.

Lemma C1_witness :
  fst (StandardMeter_Snapshot 1%nat 200 one_meter_world) = Ok (MSnapshot 2%nat)
  /\ Meter_Mark (MSnapshot 2%nat) 7 300 one_meter_world
     = (Panic "Mark called on a MeterSnapshot", one_meter_world).
Proof.
  split; [vm_compute; reflexivity|].
  apply (C1_snapshot_Mark_panics one_meter_world 1%nat 200 (MSnapshot 2%nat)
           (snd (StandardMeter_Snapshot 1%nat 200 one_meter_world))).
  vm_compute. reflexivity.
Defined.

(** C3, as stated, fails: [Mark] with a negative argument decreases the
    count of a live meter, and [Mark(1)] at [math.MaxInt64] wraps around. *)
Lemma C3_counterexample :
  (let w := one_meter_world in
   let w' := snd (StandardMeter_Mark 1%nat (-1) 100 w) in
   exists c c',
     StandardMeter_Count 1%nat w = (Ok c, w) /\
     StandardMeter_Count 1%nat w' = (Ok c', w') /\ c' < c)
  /\
  (let w := snd (StandardMeter_Mark 1%nat max_int64 100 one_meter_world) in
   let w' := snd (StandardMeter_Mark 1%nat 1 100 w) in
   exists c c',
     StandardMeter_Count 1%nat w = (Ok c, w) /\
     StandardMeter_Count 1%nat w' = (Ok c', w') /\ c' < c).
Proof.
  split.
  - exists 0, (-1). repeat split; vm_compute; reflexivity.
  - exists max_int64, min_int64. repeat split; vm_compute; reflexivity.
Qed.

(** C3, amended: no operation other than [Mark] changes the count, and
    [Mark(n)] with [0 <= n] does not decrease it as long as [count + n]
    stays within [int64]. *)
Theorem C3_count_never_decreases w p m s o :
  points_to w p m s ->
  is_int64 (count s) ->
  (forall n nw, o = OpMark n nw -> 0 <= n /\ count s + n <= max_int64) ->
  exists w' c',
    StandardMeter_Count p w = (Ok (count s), w) /\
    run_op p o w = (Ok tt, w') /\
    StandardMeter_Count p w' = (Ok c', w') /\
    count s <= c'.
Proof.
  intros Hp Hc Hmark.
  destruct (run_op_ok w p m s o Hp) as (w' & Hrun & Hp' & _).
  exists w', (count (op_snapshot o m s)).
  split; [now apply (StandardMeter_Count_spec _ _ _ _ Hp)|].
  split; [assumption|].
  split; [now apply (StandardMeter_Count_spec _ _ _ _ Hp')|].
  destruct o as [n nw|now nw| | | | | |nw|nw|]; simpl; try lia.
  destruct (stopped m =? 1); [lia|]. simpl.
  destruct (Hmark n nw eq_refl) as [Hn Hfit].
  unfold int64_add. rewrite wrap64_id; [lia|].
  unfold is_int64 in *. lia.
Qed.

Lemma C3_witness :
  exists w' c',
    StandardMeter_Count 1%nat one_meter_world = (Ok 0, one_meter_world) /\
    run_op 1%nat (OpMark 3 200) one_meter_world = (Ok tt, w') /\
    StandardMeter_Count 1%nat w' = (Ok c', w') /\
    0 <= c'.
Proof.
  apply (C3_count_never_decreases one_meter_world 1%nat
           (new_meter Exp0 100 1%nat) (zero_snapshot 100) (OpMark 3 200)).
  - split; vm_compute; reflexivity.
  - unfold is_int64, min_int64, max_int64. simpl. lia.
  - intros n nw E. inversion E; subst. unfold max_int64. simpl. lia.
Defined.

(** C4, as stated, fails: after [Mark(math.MaxInt64)] and [Mark(1)] on a
    fresh meter the count is [math.MinInt64], not the sum [2^63]. *)
Lemma C4_counterexample :
  let os := [OpMark max_int64 100; OpMark 1 100] in
  let w' := snd (run_ops 1%nat os one_meter_world) in
  StandardMeter_Count 1%nat w' = (Ok min_int64, w') /\
  min_int64 <> marked os.
Proof. split; [vm_compute; reflexivity|vm_compute; discriminate]. Qed.

(** C4, amended: for a meter made by [NewMeter] and any sequence of
    operations without [Stop], the count is the sum of the marked values
    wrapped to 64 bits, hence the exact sum whenever that sum is within
    [int64]. *)
Theorem C4_count_is_sum Exp nw w p w1 os :
  NewMeter Exp nw w = (Ok (MStandard p), w1) ->
  forallb (fun o => negb (is_stop o)) os = true ->
  exists w2,
    run_ops p os w1 = (Ok tt, w2) /\
    StandardMeter_Count p w2 = (Ok (wrap64 (marked os)), w2) /\
    (is_int64 (marked os) ->
     StandardMeter_Count p w2 = (Ok (marked os), w2)).
Proof.
  intros Hnew Hns.
  pose proof (NewMeter_Ok_inv _ _ _ _ _ Hnew) as Hp.
  destruct (run_ops_ok _ _ _ _ os Hp) as (w2 & Hrun & Hp2 & _).
  exists w2. split; [assumption|].
  assert (Hcount : StandardMeter_Count p w2 = (Ok (wrap64 (marked os)), w2)).
  { rewrite (StandardMeter_Count_spec _ _ _ _ Hp2).
    rewrite ops_count_live; try assumption; try reflexivity.
    - simpl. discriminate.
    - simpl. unfold is_int64, min_int64, max_int64. lia. }
  split; [assumption|].
  intros Hfit. now rewrite Hcount, wrap64_id.
Qed.

Lemma C4_witness :
  exists w2,
    run_ops 1%nat [OpMark 2 200; OpTick 0 300; OpMark (-5) 400]
      one_meter_world = (Ok tt, w2) /\
    StandardMeter_Count 1%nat w2 = (Ok (wrap64 (-3)), w2) /\
    (is_int64 (-3) -> StandardMeter_Count 1%nat w2 = (Ok (-3), w2)).
Proof.
  apply (C4_count_is_sum Exp0 100 empty_world 1%nat one_meter_world
           [OpMark 2 200; OpTick 0 300; OpMark (-5) 400]).
  - vm_compute. reflexivity.
  - reflexivity.
Defined.

(** C5: once [Stop()] has been called, whatever operations follow, every
    [Mark(n)] returns normally and leaves the whole state as it is; the
    count stays the one at the moment of [Stop()]. *)
Theorem C5_Mark_after_Stop_is_noop w p m s os :
  points_to w p m s ->
  exists w1 w2,
    StandardMeter_Stop p w = (Ok tt, w1) /\
    StandardMeter_Count p w1 = (Ok (count s), w1) /\
    run_ops p os w1 = (Ok tt, w2) /\
    (forall n nw, StandardMeter_Mark p n nw w2 = (Ok tt, w2)) /\
    StandardMeter_Count p w2 = (Ok (count s), w2).
Proof.
  intros [Hm Hs].
  pose proof (StandardMeter_Stop_spec _ _ _ Hm) as Hstop.
  set (w1 := if negb (stopped m =? 1)
             then setA {| started := started (arbiter w);
                          meters := meters (arbiter w) ∖ {[p]} |}
                    (setM p (set_stopped 1 m) w)
             else setM p (set_stopped 1 m) w) in *.
  assert (Hp1 : points_to w1 p (set_stopped 1 m) s).
  { unfold w1. destruct (negb (stopped m =? 1));
      (split; simpl; [apply lookup_insert_eq|assumption]). }
  destruct (run_ops_ok _ _ _ _ os Hp1) as (w2 & Hrun & Hp2 & _).
  destruct (ops_stopped os (set_stopped 1 m) s eq_refl) as [Hst Hcnt].
  exists w1, w2. split; [assumption|].
  split; [now apply (StandardMeter_Count_spec _ _ _ _ Hp1)|].
  split; [assumption|]. split.
  - intros n nw. destruct Hp2 as [Hm2 _].
    now apply (StandardMeter_Mark_stopped _ _ _ _ _ Hm2).
  - rewrite (StandardMeter_Count_spec _ _ _ _ Hp2). now rewrite Hcnt.
Qed.

Lemma C5_witness :
  exists w1 w2,
    StandardMeter_Stop 1%nat one_meter_world = (Ok tt, w1) /\
    StandardMeter_Count 1%nat w1 = (Ok 0, w1) /\
    run_ops 1%nat [OpMark 4 200; OpRateStep 300] w1 = (Ok tt, w2) /\
    (forall n nw, StandardMeter_Mark 1%nat n nw w2 = (Ok tt, w2)) /\
    StandardMeter_Count 1%nat w2 = (Ok 0, w2).
Proof.
  apply (C5_Mark_after_Stop_is_noop one_meter_world 1%nat
           (new_meter Exp0 100 1%nat) (zero_snapshot 100)
           [OpMark 4 200; OpRateStep 300]).
  split; vm_compute; reflexivity.
Defined.

(** C6: [Snapshot()] returns a new [MeterSnapshot] object whose count and
    rates are the ones the meter publishes when the call returns, and no
    later operation on the meter changes what the copy's accessors
    return. *)
Theorem C6_snapshot_is_detached w p m s nw :
  points_to w p m s ->
  exists q c w1 s1,
    StandardMeter_Snapshot p nw w = (Ok (MSnapshot q), w1) /\
    points_to w1 p m s1 /\
    snapshots w1 !! q = Some c /\
    q <> snapshot m /\
    count c = count s1 /\
    rate1 c = rate1 s1 /\ rate5 c = rate5 s1 /\ rate15 c = rate15 s1 /\
    rateMean c = rateMean s1 /\
    forall os,
    exists w2,
      run_ops p os w1 = (Ok tt, w2) /\
      Meter_Count (MSnapshot q) w2 = (Ok (count c), w2) /\
      Meter_Rate1 (MSnapshot q) w2 = (Ok (Float64frombits (rate1 c)), w2) /\
      Meter_Rate5 (MSnapshot q) w2 = (Ok (Float64frombits (rate5 c)), w2) /\
      Meter_Rate15 (MSnapshot q) w2 = (Ok (Float64frombits (rate15 c)), w2) /\
      Meter_RateMean (MSnapshot q) w2
      = (Ok (Float64frombits (rateMean c)), w2).
Proof.
  intros Hp. pose proof Hp as [Hm Hs].
  pose proof (StandardMeter_Snapshot_spec _ _ _ _ nw Hp) as Hsnap.
  cbv zeta in Hsnap.
  set (s1 := step_snapshot m nw s) in *.
  set (w0 := setS (snapshot m) s1 w) in *.
  set (q := fresh ({[nilptr]} ∪ dom (snapshots w0))) in *.
  assert (Hq : snapshots w0 !! q = None)
    by apply fresh_snapshot_not_allocated.
  assert (Hne : q <> snapshot m).
  { intros E. rewrite E in Hq. unfold w0 in Hq. simpl in Hq.
    rewrite lookup_insert_eq in Hq. discriminate. }
  assert (Hp1 : points_to (setS q (copy_of s1) w0) p m s1).
  { split; simpl; [assumption|].
    rewrite lookup_insert_ne by assumption. apply lookup_insert_eq. }
  exists q, (copy_of s1), (setS q (copy_of s1) w0), s1.
  split; [assumption|]. split; [assumption|].
  split; [simpl; apply lookup_insert_eq|].
  split; [assumption|].
  repeat (split; [reflexivity|]).
  intros os.
  destruct (run_ops_ok _ _ _ _ os Hp1) as (w2 & Hrun & _ & Hf).
  exists w2. split; [assumption|].
  assert (Hc : snapshots w2 !! q = Some (copy_of s1)).
  { rewrite (Hf q Hne); simpl; rewrite lookup_insert_eq; [reflexivity|eauto]. }
  simpl.
  unfold MeterSnapshot_Count, MeterSnapshot_Rate1, MeterSnapshot_Rate5,
    MeterSnapshot_Rate15, MeterSnapshot_RateMean.
  repeat split; exec; reflexivity.
Qed.

Lemma C6_witness :
  exists q c w1 s1,
    StandardMeter_Snapshot 1%nat 200 one_meter_world = (Ok (MSnapshot q), w1)
    /\ points_to w1 1%nat (new_meter Exp0 100 1%nat) s1
    /\ snapshots w1 !! q = Some c
    /\ q <> 1%nat
    /\ count c = count s1
    /\ rate1 c = rate1 s1 /\ rate5 c = rate5 s1 /\ rate15 c = rate15 s1
    /\ rateMean c = rateMean s1
    /\ forall os,
       exists w2,
         run_ops 1%nat os w1 = (Ok tt, w2) /\
         Meter_Count (MSnapshot q) w2 = (Ok (count c), w2) /\
         Meter_Rate1 (MSnapshot q) w2 = (Ok (Float64frombits (rate1 c)), w2) /\
         Meter_Rate5 (MSnapshot q) w2 = (Ok (Float64frombits (rate5 c)), w2) /\
         Meter_Rate15 (MSnapshot q) w2
         = (Ok (Float64frombits (rate15 c)), w2) /\
         Meter_RateMean (MSnapshot q) w2
         = (Ok (Float64frombits (rateMean c)), w2).
Proof.
  apply (C6_snapshot_is_detached one_meter_world 1%nat
           (new_meter Exp0 100 1%nat) (zero_snapshot 100) 200).
  split; vm_compute; reflexivity.
Defined.

(** C7, as stated, fails: when the clock has not advanced since the previous
    refresh the step rate is not recomputed.  On a fresh meter marked once,
    [RateStep()] at the clock reading of the construction returns the
    previous value 0, whereas [(count - lastCount) / elapsed] is [5 / 0]. *)
Lemma C7_counterexample :
  let w := snd (StandardMeter_Mark 1%nat 5 100 one_meter_world) in
  (count <$> snapshot_of w 1%nat = Some 5 /\
   _lastCount <$> snapshot_of w 1%nat = Some 0 /\
   _lastTime <$> snapshot_of w 1%nat = Some 100) /\
  fst (StandardMeter_RateStep 1%nat 100 w) = Ok 0%float /\
  Float64bits 0%float
  <> Float64bits
       (float64_of_int64 (int64_sub 5 0)
        / Duration_Seconds (Time_Sub 100%Z 100%Z))%float.
Proof.
  split; [repeat split; vm_compute; reflexivity|].
  split; [vm_compute; reflexivity|vm_compute; discriminate].
Qed.

(** C7, amended: [RateStep()] republishes rate1, rate5 and rate15 from the
    EWMAs, republishes rateMean if the time since the start is positive,
    recomputes the step rate as [float64(count - lastCount) / elapsed] (the
    difference being an [int64]) if the time elapsed since the previous
    refresh is positive and keeps the previous step rate otherwise, records
    the count and the clock reading as the new baseline, and returns the
    step rate. *)
Theorem C7_RateStep_refreshes w p m s nw :
  points_to w p m s ->
  let sub := Duration_Seconds (Time_Sub nw (startTime m)) in
  let step := Duration_Seconds (Time_Sub nw (_lastTime s)) in
  exists w1 s1,
    StandardMeter_RateStep p nw w = (Ok (Float64frombits (rateStep s1)), w1) /\
    points_to w1 p m s1 /\
    rate1 s1 = Float64bits (EWMA_Rate (a1 m)) /\
    rate5 s1 = Float64bits (EWMA_Rate (a5 m)) /\
    rate15 s1 = Float64bits (EWMA_Rate (a15 m)) /\
    rateMean s1 =
      (if (0 <? sub)%float
       then Float64bits (float64_of_int64 (count s) / sub)%float
       else rateMean s) /\
    rateStep s1 =
      (if (0 <? step)%float
       then Float64bits
              (float64_of_int64 (int64_sub (count s) (_lastCount s))
               / step)%float
       else rateStep s) /\
    count s1 = count s /\
    _lastCount s1 = count s /\
    _lastTime s1 = nw.
Proof.
  intros Hp sub step.
  exists (setS (snapshot m) (step_snapshot m nw s) w), (step_snapshot m nw s).
  split; [now apply StandardMeter_RateStep_spec|].
  split.
  - destruct Hp as [Hm Hs]. split; simpl; [assumption|apply lookup_insert_eq].
  - repeat split.
Qed.

Lemma C7_witness :
  let w := snd (StandardMeter_Mark 1%nat 5 100 one_meter_world) in
  exists w1 s1,
    StandardMeter_RateStep 1%nat 2000000100 w
    = (Ok (Float64frombits (rateStep s1)), w1) /\
    rateStep s1 = Float64bits 2.5%float /\
    _lastCount s1 = 5 /\
    _lastTime s1 = 2000000100.
Proof.
  intros w.
  destruct (C7_RateStep_refreshes w 1%nat
              (mark_meter 5 (new_meter Exp0 100 1%nat))
              (publish (mark_meter 5 (new_meter Exp0 100 1%nat)) 100
                 (set_count 5 (zero_snapshot 100)))
              2000000100)
    as (w1 & s1 & Hrun & _ & _ & _ & _ & _ & Hstep & _ & Hlast & Htime).
  - split; vm_compute; reflexivity.
  - exists w1, s1. split; [exact Hrun|].
    split; [rewrite Hstep; vm_compute; reflexivity|].
    split; assumption.
Defined.

(** C8: right after [NewMeter()] has built a [StandardMeter], [Rate1()],
    [Rate5()] and [Rate15()] return 0. *)
Theorem C8_fresh_rates_are_zero Exp nw w :
  UseNilMetrics w = false ->
  exists p w1,
    NewMeter Exp nw w = (Ok (MStandard p), w1) /\
    StandardMeter_Rate1 p w1 = (Ok 0%float, w1) /\
    StandardMeter_Rate5 p w1 = (Ok 0%float, w1) /\
    StandardMeter_Rate15 p w1 = (Ok 0%float, w1).
Proof.
  intros Hnil.
  destruct (NewMeter_points_to Exp nw w Hnil) as (p & w1 & Hnew & Hp).
  exists p, w1. split; [assumption|].
  rewrite (StandardMeter_Rate1_spec _ _ _ _ Hp),
    (StandardMeter_Rate5_spec _ _ _ _ Hp),
    (StandardMeter_Rate15_spec _ _ _ _ Hp).
  repeat split.
Qed.

Lemma C8_witness :
  exists p w1,
    NewMeter Exp0 100 empty_world = (Ok (MStandard p), w1) /\
    StandardMeter_Rate1 p w1 = (Ok 0%float, w1) /\
    StandardMeter_Rate5 p w1 = (Ok 0%float, w1) /\
    StandardMeter_Rate15 p w1 = (Ok 0%float, w1).
Proof. apply (C8_fresh_rates_are_zero Exp0 100 empty_world). reflexivity. Defined.

Lemma StandardMeter_Stop_Ok_inv w p w1 :
  StandardMeter_Stop p w = (Ok tt, w1) ->
  exists m, standardMeters w !! p = Some m.
Proof.
  unfold StandardMeter_Stop. intros H.
  apply bind_Ok_inv in H as (m & w2 & Hm & _).
  apply loadMeter_Ok_inv in Hm as [Hm _]. now exists m.
Qed.

Lemma StandardMeter_Stop_stopped w p m :
  standardMeters w !! p = Some m -> stopped m = 1 ->
  StandardMeter_Stop p w = (Ok tt, w).
Proof.
  intros Hm Hst. rewrite (StandardMeter_Stop_spec _ _ _ Hm), Hst. simpl.
  f_equal. apply setM_id. rewrite Hm. f_equal.
  destruct m; simpl in *. now subst.
Qed.

(** C9: after a first [Stop()], every further [Stop()], however many,
    returns normally and leaves the meter and the arbiter's set of
    registered meters as they are. *)
Theorem C9_Stop_is_idempotent w p w1 :
  StandardMeter_Stop p w = (Ok tt, w1) ->
  forall k, run_ops p (replicate k OpStop) w1 = (Ok tt, w1).
Proof.
  intros H.
  destruct (StandardMeter_Stop_Ok_inv _ _ _ H) as (m & Hm).
  rewrite (StandardMeter_Stop_spec _ _ _ Hm) in H.
  assert (Hm1 : standardMeters w1 !! p = Some (set_stopped 1 m)).
  { inversion H as [Hw]. destruct (negb (stopped m =? 1)); simpl;
      apply lookup_insert_eq. }
  induction k as [|k IH]; simpl; [reflexivity|].
  rewrite (bind_Ok _ _ _ _ _
             (StandardMeter_Stop_stopped _ _ _ Hm1 eq_refl)).
  exact IH.
Qed.

Lemma C9_witness :
  let w1 := snd (StandardMeter_Stop 1%nat one_meter_world) in
  fst (StandardMeter_Stop 1%nat one_meter_world) = Ok tt /\
  run_ops 1%nat (replicate 3 OpStop) w1 = (Ok tt, w1).
Proof.
  intros w1. split; [vm_compute; reflexivity|].
  apply (C9_Stop_is_idempotent one_meter_world 1%nat w1).
  vm_compute. reflexivity.
Defined.

(** C10: the copy returned by [Snapshot()] does not carry the step rate:
    [RateStep()] on it returns 0, whatever the step rate of the meter. *)
Theorem C10_snapshot_RateStep_is_zero w p nw x w1 :
  StandardMeter_Snapshot p nw w = (Ok x, w1) ->
  forall t, Meter_RateStep x t w1 = (Ok 0%float, w1).
Proof.
  intros H t.
  destruct (StandardMeter_Snapshot_Ok_inv _ _ _ _ _ H) as (m & s & Hp).
  rewrite (StandardMeter_Snapshot_spec _ _ _ _ _ Hp) in H.
  inversion H; subst. simpl. unfold MeterSnapshot_RateStep.
  exec. reflexivity.
Qed.

Lemma C10_witness :
  let w := snd (StandardMeter_Mark 1%nat 5 100 one_meter_world) in
  let r := StandardMeter_Snapshot 1%nat 2000000100 w in
  fst (StandardMeter_RateStep 1%nat 2000000100 w) = Ok 2.5%float /\
  Meter_RateStep (MSnapshot 2%nat) 2000000100 (snd r) = (Ok 0%float, snd r).
Proof.
  intros w r. split; [vm_compute; reflexivity|].
  apply (C10_snapshot_RateStep_is_zero w 1%nat 2000000100 (MSnapshot 2%nat)
           (snd r)).
  vm_compute. reflexivity.
Defined.

(** ** The arbiter's pass *)

Lemma meter_ok_points_to w p :
  meter_ok w p <-> exists m s, points_to w p m s.
Proof.
  unfold meter_ok, snapshot_of, points_to. split.
  - intros [s Hs]. destruct (standardMeters w !! p) as [m|]; [|discriminate].
    now exists m, s.
  - intros (m & s & Hm & Hs). rewrite Hm. now exists s.
Qed.

Lemma tick_meter_snapshot m : snapshot (tick_meter m) = snapshot m.
Proof. reflexivity. Qed.

Lemma StandardMeter_tick_effect w p m s now nw :
  points_to w p m s ->
  exists w1,
    StandardMeter_tick p now nw w = (Ok tt, w1) /\
    standardMeters w1 = <[p := tick_meter m]> (standardMeters w) /\
    arbiter w1 = arbiter w /\
    (forall p', meter_ok w p' -> meter_ok w1 p').
Proof.
  intros Hp. rewrite (StandardMeter_tick_spec _ _ _ _ _ _ Hp).
  eexists. split; [reflexivity|]. split; [reflexivity|].
  split; [reflexivity|].
  intros p' Hok. apply meter_ok_points_to in Hok as (m' & s' & Hm' & Hs').
  apply meter_ok_points_to. destruct Hp as [Hm Hs].
  destruct (decide (p' = p)) as [->|Hne].
  - exists (tick_meter m), (publish (tick_meter m) nw s).
    split; simpl; apply lookup_insert_eq.
  - destruct (decide (snapshot m' = snapshot m)) as [E|E].
    + exists m', (publish (tick_meter m) nw s). split; simpl.
      * now rewrite lookup_insert_ne.
      * rewrite E. apply lookup_insert_eq.
    + exists m', s'. split; simpl.
      * now rewrite lookup_insert_ne.
      * now rewrite lookup_insert_ne.
Qed.

Lemma tickMeters_ok nw order w :
  NoDup order.*1 ->
  (forall p, p ∈ order.*1 -> meter_ok w p) ->
  exists w',
    tickMeters nw order w = (Ok tt, w') /\
    arbiter w' = arbiter w /\
    (forall p, meter_ok w p -> meter_ok w' p) /\
    (forall p, p ∈ order.*1 ->
               standardMeters w' !! p = tick_meter <$> standardMeters w !! p) /\
    (forall p, p ∉ order.*1 ->
               standardMeters w' !! p = standardMeters w !! p).
Proof.
  revert w. induction order as [|[p0 t0] order IH]; intros w Hnd Hok; simpl.
  - exists w. repeat split; easy.
  - simpl in Hnd. apply NoDup_cons in Hnd as [Hp0 Hnd].
    assert (Hok0 : meter_ok w p0) by (apply Hok; simpl; left).
    apply meter_ok_points_to in Hok0 as (m0 & s0 & Hpt).
    destruct (StandardMeter_tick_effect w p0 m0 s0 nw t0 Hpt)
      as (w1 & Hrun & HM & HA & Hkeep).
    destruct (IH w1 Hnd) as (w' & Hrun' & HA' & Hkeep' & Hin & Hout).
    { intros p Hp. apply Hkeep, Hok. simpl. now right. }
    exists w'. rewrite (bind_Ok _ _ _ _ _ Hrun).
    split; [assumption|]. split; [congruence|].
    split; [auto|]. split.
    + intros p Hp. simpl in Hp. apply elem_of_cons in Hp as [->|Hp].
      * rewrite (Hout _ Hp0), HM, lookup_insert_eq.
        destruct Hpt as [-> _]. reflexivity.
      * rewrite (Hin _ Hp), HM. rewrite lookup_insert_ne; [reflexivity|].
        intros ->. contradiction.
    + intros p Hp. simpl in Hp. apply not_elem_of_cons in Hp as [Hne Hp].
      rewrite (Hout _ Hp), HM. now rewrite lookup_insert_ne.
Qed.

(** C2, as stated, fails: the pass has no [recover].  When the tick of the
    first meter of the pass panics, the pass ends with that panic, the second
    meter, whose tick would succeed, is left as it was, and the loop ends
    with the panic without running its next pass. *)
Lemma C2_counterexample :
  let order := [(1%nat, 5000000100); (2%nat, 5000000100)] in
  let pass := tickMeters 5000000000 order broken_world in
  enumerates order broken_world /\
  fst (StandardMeter_tick 2%nat 5000000000 5000000100 broken_world) = Ok tt /\
  fst pass = Panic nil_dereference /\
  standardMeters (snd pass) !! 2%nat = standardMeters broken_world !! 2%nat /\
  arbiter_tick [(5000000000, order); (10000000000, order)] broken_world
  = (Panic nil_dereference, snd pass).
Proof.
  intros order pass. split.
  - unfold enumerates.
    replace (elements (meters (arbiter broken_world))) with [2%nat; 1%nat]
      by (vm_compute; reflexivity).
    apply perm_swap.
  - repeat split; vm_compute; reflexivity.
Qed.

(** C2, amended: as long as every registered meter is allocated with its
    snapshot, which is the case of the meters built by [NewMeter], no tick
    panics: every pass of the loop ticks every registered meter exactly
    once, and after any number of ticker events the loop is still running.
    (A panic in a tick is not recovered: it ends the pass and the loop.) *)
Theorem C2_passes_tick_every_meter events w :
  registered_ok w ->
  (forall e, e ∈ events -> enumerates (snd e) w) ->
  exists w',
    arbiter_tick events w = (Ok tt, w') /\
    arbiter w' = arbiter w /\
    registered_ok w' /\
    forall p m,
      p ∈ meters (arbiter w) ->
      standardMeters w !! p = Some m ->
      standardMeters w' !! p = Some (Nat.iter (length events) tick_meter m).
Proof.
  revert w. induction events as [|[nw order] events IH]; intros w Hok Hen.
  - exists w. simpl. repeat split; try easy.
  - assert (Hord : enumerates order w) by (apply (Hen (nw, order)); left).
    unfold enumerates in Hord.
    assert (Hnd : NoDup order.*1).
    { rewrite Hord. apply NoDup_elements. }
    assert (Hmem : forall p, p ∈ order.*1 <-> p ∈ meters (arbiter w)).
    { intros p. rewrite Hord. apply elem_of_elements. }
    destruct (tickMeters_ok nw order w Hnd)
      as (w1 & Hrun & HA & Hkeep & Hin & _).
    { intros p Hp. apply Hok, Hmem, Hp. }
    destruct (IH w1) as (w' & Hrun' & HA' & Hok' & Hiter).
    { intros p Hp. rewrite HA in Hp. auto. }
    { intros e He. unfold enumerates. rewrite HA.
      apply (Hen e). now right. }
    exists w'. simpl. rewrite (bind_Ok _ _ _ _ _ Hrun).
    split; [assumption|]. split; [congruence|].
    split; [assumption|].
    intros p m Hp Hm.
    rewrite (Hiter p (tick_meter m)).
    + now rewrite Nat.iter_swap.
    + now rewrite HA.
    + rewrite (Hin p) by now apply Hmem. now rewrite Hm.
Qed.

Lemma two_meter_world_registered : registered_ok two_meter_world.
Proof.
  intros p Hp.
  assert (Hp' : p = 1%nat \/ p = 2%nat).
  { apply elem_of_elements in Hp.
    replace (elements (meters (arbiter two_meter_world)))
      with [2%nat; 1%nat] in Hp by (vm_compute; reflexivity).
    apply elem_of_cons in Hp as [Hp|Hp]; [now right|].
    apply list_elem_of_singleton in Hp. now left. }
  destruct Hp' as [->| ->]; vm_compute; eauto.
Qed.

Lemma two_meter_world_enumerates :
  enumerates [(1%nat, 5000000200); (2%nat, 5000000300)] two_meter_world /\
  enumerates [(2%nat, 10000000200); (1%nat, 10000000300)] two_meter_world.
Proof.
  unfold enumerates.
  replace (elements (meters (arbiter two_meter_world)))
    with [2%nat; 1%nat] by (vm_compute; reflexivity).
  split; [apply perm_swap|reflexivity].
Qed.

Lemma C2_witness :
  let events :=
    [(5000000000, [(1%nat, 5000000200); (2%nat, 5000000300)]);
     (10000000000, [(2%nat, 10000000200); (1%nat, 10000000300)])] in
  exists w',
    arbiter_tick events two_meter_world = (Ok tt, w') /\
    arbiter w' = arbiter two_meter_world /\
    registered_ok w' /\
    forall p m,
      p ∈ meters (arbiter two_meter_world) ->
      standardMeters two_meter_world !! p = Some m ->
      standardMeters w' !! p = Some (Nat.iter 2 tick_meter m).
Proof.
  intros events.
  apply (C2_passes_tick_every_meter events two_meter_world).
  - exact two_meter_world_registered.
  - intros e He. unfold events in He.
    apply elem_of_cons in He as [->|He];
      [exact (proj1 two_meter_world_enumerates)|].
    apply list_elem_of_singleton in He as ->.
    exact (proj2 two_meter_world_enumerates).
Defined.

(** * Further properties of meter.go *)

(** ** The float64 encoding *)

Lemma decode_fields (s : bool) E F :
  0 <= E < 2^11 -> 0 <= F < 2^52 ->
  let b := sign_bit s * 2^63 + E * 2^52 + F in
  Z.odd (b / 2^63) = s /\ (b / 2^52) mod 2^11 = E /\ b mod 2^52 = F.
Proof.
  intros HE HF b.
  change (2^11) with 2048 in *. change (2^52) with 4503599627370496 in *.
  assert (Hq : b / 4503599627370496 = sign_bit s * 2048 + E).
  { symmetry. apply Z.div_unique with (r := F); [lia|].
    unfold b. change (2^63) with 9223372036854775808.
    change (2^52) with 4503599627370496. lia. }
  assert (Hs : b / 2^63 = sign_bit s).
  { symmetry. apply Z.div_unique with (r := E * 4503599627370496 + F).
    - change (2^63) with 9223372036854775808. lia.
    - unfold b. change (2^52) with 4503599627370496. lia. }
  split; [rewrite Hs; now destruct s|]. split.
  - rewrite Hq. symmetry. apply Z.mod_unique with (q := sign_bit s); lia.
  - symmetry. apply Z.mod_unique with (q := sign_bit s * 2048 + E); [lia|].
    unfold b. change (2^63) with 9223372036854775808.
    change (2^52) with 4503599627370496. lia.
Qed.

Lemma digits2_pos_bounds m :
  2 ^ (Z.pos (digits2_pos m) - 1) <= Z.pos m < 2 ^ Z.pos (digits2_pos m).
Proof.
  induction m as [m IH|m IH|]; simpl digits2_pos.
  - rewrite Pos2Z.inj_succ.
    replace (Z.succ (Z.pos (digits2_pos m)) - 1)
      with (Z.succ (Z.pos (digits2_pos m) - 1)) by lia.
    rewrite !Z.pow_succ_r by lia. lia.
  - rewrite Pos2Z.inj_succ.
    replace (Z.succ (Z.pos (digits2_pos m)) - 1)
      with (Z.succ (Z.pos (digits2_pos m) - 1)) by lia.
    rewrite !Z.pow_succ_r by lia. lia.
  - simpl. lia.
Qed.

(** A valid binary64 number is subnormal, with exponent -1074, or has a
    mantissa of exactly 53 bits. *)
Lemma valid_finite_cases s m e :
  valid_binary (S754_finite s m e) = true ->
  (Z.pos m < 2^52 /\ e = -1074) \/
  (2^52 <= Z.pos m < 2^53 /\ -1074 <= e <= 971).
Proof.
  unfold valid_binary, bounded, canonical_mantissa, fexp, emin.
  change prec with 53. change emax with 1024.
  intros H. apply andb_prop in H as [H1 H2].
  apply Z.leb_le in H2.
  apply Z.eqb_eq in H1.
  pose proof (digits2_pos_bounds m) as [Hlo Hhi].
  destruct (Z_lt_le_dec (Z.pos (digits2_pos m) + e - 53) (3 - 1024 - 53))
    as [Hlt|Hge].
  - left. rewrite Z.max_r in H1 by lia. split; [|lia].
    eapply Z.lt_le_trans; [exact Hhi|].
    apply Z.pow_le_mono_r; lia.
  - right. rewrite Z.max_l in H1 by lia.
    assert (Hd : Z.pos (digits2_pos m) = 53) by lia.
    rewrite Hd in *. simpl in Hlo. lia.
Qed.

Lemma bitsSF_SFbits x : valid_binary x = true -> bitsSF (SFbits x) = x.
Proof.
  destruct x as [s|s| |s m e]; intros Hv.
  - unfold SFbits, bitsSF.
    destruct (decode_fields s 0 0) as (H1 & H2 & H3); [lia|lia|].
    replace (if s then 2^63 else 0) with (sign_bit s * 2^63 + 0 * 2^52 + 0)
      by (destruct s; reflexivity).
    cbv zeta. rewrite H1, H2, H3. reflexivity.
  - unfold SFbits, bitsSF.
    destruct (decode_fields s 2047 0) as (H1 & H2 & H3); [lia|lia|].
    replace ((if s then 2^63 else 0) + 2047 * 2^52)
      with (sign_bit s * 2^63 + 2047 * 2^52 + 0)
      by (destruct s; reflexivity).
    cbv zeta. rewrite H1, H2, H3. reflexivity.
  - reflexivity.
  - destruct (valid_finite_cases s m e Hv) as [[Hm He]|[Hm He]].
    + unfold SFbits, bitsSF.
      destruct (Z.ltb_spec (Z.pos m) (2^52)) as [_|Hc]; [|lia].
      destruct (decode_fields s 0 (Z.pos m)) as (H1 & H2 & H3); [lia|lia|].
      replace ((if s then 2^63 else 0) + Z.pos m)
        with (sign_bit s * 2^63 + 0 * 2^52 + Z.pos m)
        by (destruct s; reflexivity).
      cbv zeta. rewrite H1, H2, H3. subst e. reflexivity.
    + unfold SFbits, bitsSF.
      destruct (Z.ltb_spec (Z.pos m) (2^52)) as [Hc|_]; [lia|].
      destruct (decode_fields s (e + 1075) (Z.pos m - 2^52))
        as (H1 & H2 & H3).
      { change (2^11) with 2048. lia. }
      { change (2^53) with (2 * 2^52) in Hm. lia. }
      replace ((if s then 2^63 else 0)
               + ((e + 1075) * 2^52 + (Z.pos m - 2^52)))
        with (sign_bit s * 2^63 + (e + 1075) * 2^52 + (Z.pos m - 2^52))
        by (destruct s; unfold sign_bit; ring).
      cbv zeta. rewrite H1, H2, H3.
      destruct (Z.eqb_spec (e + 1075) 0) as [E0|_]; [lia|].
      destruct (Z.eqb_spec (e + 1075) 2047) as [E1|_]; [lia|].
      replace (Z.pos m - 2^52 + 2^52) with (Z.pos m) by lia.
      f_equal. lia.
Qed.

Lemma frombits_bits x : Float64frombits (Float64bits x) = x.
Proof.
  unfold Float64frombits, Float64bits.
  rewrite bitsSF_SFbits by apply Prim2SF_valid.
  apply SF2Prim_Prim2SF.
Qed.

(** X1: a rate published as [math.Float64bits(r)] and read back with
    [math.Float64frombits] is [r] itself, for every [float64], infinities
    and zeros of both signs included. *)
Theorem Float64frombits_Float64bits x : Float64frombits (Float64bits x) = x.
Proof.
  unfold Float64frombits, Float64bits.
  rewrite (bitsSF_SFbits (Prim2SF x) (Prim2SF_valid x)).
  apply SF2Prim_Prim2SF.
Qed.

Lemma float_zero_div (y : float) :
  (0 <? y)%float = true -> (0 / y)%float = 0%float.
Proof.
  intros H. rewrite ltb_spec in H.
  rewrite <- (SF2Prim_Prim2SF (0 / y)%float), div_spec.
  change (Prim2SF 0%float) with (S754_zero false) in *.
  destruct (Prim2SF y) as [s|s| |s m e]; simpl in H; try discriminate;
    destruct s; try discriminate; reflexivity.
Qed.

(** ** The exact effect of an operation *)

Lemma run_op_exact w p m s o :
  points_to w p m s -> run_op p o w = (Ok tt, op_world p o m s w).
Proof.
  intros Hp. pose proof Hp as [Hm Hs].
  destruct o as [n nw|now nw| | | | | |nw|nw|]; simpl.
  - destruct (Z.eqb_spec (stopped m) 1) as [E|E].
    + rewrite (StandardMeter_Mark_stopped _ _ _ _ _ Hm E).
      now rewrite (setM_id _ _ _ Hm), (setS_id _ _ _ Hs).
    + apply (StandardMeter_Mark_live _ _ _ _ _ _ Hp E).
  - apply (StandardMeter_tick_spec _ _ _ _ _ _ Hp).
  - now rewrite (bind_Ok _ _ _ _ _ (StandardMeter_Count_spec _ _ _ _ Hp)).
  - now rewrite (bind_Ok _ _ _ _ _ (StandardMeter_Rate1_spec _ _ _ _ Hp)).
  - now rewrite (bind_Ok _ _ _ _ _ (StandardMeter_Rate5_spec _ _ _ _ Hp)).
  - now rewrite (bind_Ok _ _ _ _ _ (StandardMeter_Rate15_spec _ _ _ _ Hp)).
  - now rewrite (bind_Ok _ _ _ _ _ (StandardMeter_RateMean_spec _ _ _ _ Hp)).
  - now rewrite (bind_Ok _ _ _ _ _ (StandardMeter_RateStep_spec _ _ _ _ _ Hp)).
  - now rewrite (bind_Ok _ _ _ _ _ (StandardMeter_Snapshot_spec _ _ _ _ _ Hp)).
  - apply (StandardMeter_Stop_spec _ _ _ Hm).
Qed.

(** What [op_world] does to the two heaps and to the arbiter. *)
Lemma op_world_meters p o m s w :
  standardMeters w !! p = Some m ->
  standardMeters (op_world p o m s w) = <[p := op_meter o m]> (standardMeters w).
Proof.
  intros Hm.
  destruct o; simpl; try reflexivity;
    try (symmetry; now apply insert_id).
  now destruct (negb (stopped m =? 1)).
Qed.

Lemma op_world_snapshots_other p o m s w q :
  snapshots w !! snapshot m = Some s ->
  q <> snapshot m -> is_Some (snapshots w !! q) ->
  snapshots (op_world p o m s w) !! q = snapshots w !! q.
Proof.
  intros Hs Hq Hal.
  destruct o as [n nw|now nw| | | | | |nw|nw|]; simpl; try reflexivity;
    try (now rewrite lookup_insert_ne).
  - rewrite lookup_insert_ne; [now rewrite lookup_insert_ne|].
    intros E. subst q.
    pose proof (fresh_snapshot_not_allocated
                  (<[snapshot m := step_snapshot m nw s]> (snapshots w))) as Hf.
    rewrite lookup_insert_ne in Hf by (intros E; now apply Hq).
    rewrite Hf in Hal. now destruct Hal.
  - now destruct (negb (stopped m =? 1)).
Qed.

Lemma op_world_snapshots_own p o m s w :
  snapshots w !! snapshot m = Some s ->
  snapshots (op_world p o m s w) !! snapshot m = Some (op_snapshot o m s).
Proof.
  intros Hs.
  destruct o as [n nw|now nw| | | | | |nw|nw|]; simpl; try assumption;
    try apply lookup_insert_eq.
  - rewrite lookup_insert_ne; [apply lookup_insert_eq|].
    intros E.
    pose proof (fresh_snapshot_not_allocated
                  (<[snapshot m := step_snapshot m nw s]> (snapshots w))) as Hf.
    rewrite E, lookup_insert_eq in Hf. discriminate.
  - now destruct (negb (stopped m =? 1)).
Qed.

Lemma op_world_snapshots_keep p o m s w q :
  snapshots w !! snapshot m = Some s ->
  is_Some (snapshots w !! q) ->
  is_Some (snapshots (op_world p o m s w) !! q).
Proof.
  intros Hs Hal. destruct (decide (q = snapshot m)) as [->|Hq].
  - rewrite (op_world_snapshots_own _ _ _ _ _ Hs). eauto.
  - now rewrite (op_world_snapshots_other _ _ _ _ _ _ Hs Hq Hal).
Qed.

Lemma op_world_registered p o m s w :
  meters (arbiter (op_world p o m s w)) =
  match o with
  | OpStop => if negb (stopped m =? 1)
              then meters (arbiter w) ∖ {[p]} else meters (arbiter w)
  | _ => meters (arbiter w)
  end.
Proof.
  destruct o; simpl; try reflexivity.
  now destruct (negb (stopped m =? 1)).
Qed.

(** ** Well-formed worlds *)

Lemma wf_initial w : initial w -> wf_world w.
Proof.
  intros (Hs & Hm & Ha). repeat split.
  - intros p m H. rewrite Hm, lookup_empty in H. discriminate.
  - intros p p' m m' H. rewrite Hm, lookup_empty in H. discriminate.
  - intros p H. rewrite Ha in H. now apply not_elem_of_empty in H.
Qed.

Lemma wf_points_to w p m :
  wf_world w -> standardMeters w !! p = Some m ->
  exists s, points_to w p m s.
Proof.
  intros (Hal & _ & _) Hm. destruct (Hal p m Hm) as [s Hs]. now exists s.
Qed.

Lemma wf_NewMeter Exp nw w x w' :
  wf_world w -> NewMeter Exp nw w = (Ok x, w') -> wf_world w'.
Proof.
  intros Hwf H. destruct (UseNilMetrics w) eqn:Hnil.
  - rewrite (NewMeter_nil _ _ _ Hnil) in H. now inversion H; subst.
  - rewrite (NewMeter_spec _ _ _ Hnil) in H. inversion H; subst; clear H.
    destruct Hwf as (Hal & Hinj & Hreg).
    set (q := fresh ({[nilptr]} ∪ dom (snapshots w))).
    set (p := fresh ({[nilptr]} ∪ dom (standardMeters w))).
    assert (Hq : snapshots w !! q = None)
      by apply fresh_snapshot_not_allocated.
    assert (Hp : standardMeters w !! p = None)
      by apply fresh_meter_not_allocated.
    assert (Hold : forall p1 m1, standardMeters w !! p1 = Some m1 ->
                                 snapshot m1 <> q).
    { intros p1 m1 H1 E. destruct (Hal p1 m1 H1) as [s1 Hs1].
      rewrite E, Hq in Hs1. discriminate. }
    repeat split; simpl.
    + intros p1 m1 H1. apply lookup_insert_Some in H1 as [[<- <-]|[Hne H1]].
      * simpl. rewrite lookup_insert_eq. eauto.
      * rewrite lookup_insert_ne
          by (intros E; now apply (Hold _ _ H1)).
        eauto.
    + intros p1 p2 m1 m2 H1 H2 E.
      apply lookup_insert_Some in H1 as [[<- <-]|[Hne1 H1]];
        apply lookup_insert_Some in H2 as [[<- <-]|[Hne2 H2]].
      * reflexivity.
      * simpl in E. symmetry in E. destruct (Hold _ _ H2 E).
      * simpl in E. destruct (Hold _ _ H1 E).
      * eauto.
    + intros p1 H1. apply elem_of_union in H1 as [H1|H1].
      * apply elem_of_singleton in H1 as ->. rewrite lookup_insert_eq. eauto.
      * destruct (decide (p = p1)) as [<-|Hne].
        -- rewrite lookup_insert_eq. eauto.
        -- rewrite lookup_insert_ne by assumption. auto.
Qed.

Lemma wf_op_world w p m s o :
  wf_world w -> points_to w p m s -> wf_world (op_world p o m s w).
Proof.
  intros (Hal & Hinj & Hreg) [Hm Hs].
  assert (HM := op_world_meters p o m s w Hm).
  repeat split.
  - intros p1 m1 H1. rewrite HM in H1.
    apply lookup_insert_Some in H1 as [[<- <-]|[Hne H1]].
    + rewrite op_meter_snapshot, (op_world_snapshots_own _ _ _ _ _ Hs). eauto.
    + apply (op_world_snapshots_keep _ _ _ _ _ _ Hs). eauto.
  - intros p1 p2 m1 m2 H1 H2 E. rewrite HM in H1, H2.
    apply lookup_insert_Some in H1 as [[<- <-]|[Hne1 H1]];
      apply lookup_insert_Some in H2 as [[<- <-]|[Hne2 H2]].
    + reflexivity.
    + rewrite op_meter_snapshot in E. eauto.
    + rewrite op_meter_snapshot in E. eauto.
    + eauto.
  - intros p1 H1. rewrite HM. rewrite op_world_registered in H1.
    assert (H1' : p1 ∈ meters (arbiter w)).
    { destruct o; try assumption.
      destruct (negb (stopped m =? 1)); [|assumption].
      now apply elem_of_difference in H1 as [H1 _]. }
    destruct (decide (p = p1)) as [<-|Hne].
    + rewrite lookup_insert_eq. eauto.
    + rewrite lookup_insert_ne by assumption. auto.
Qed.

(** An operation on one meter leaves every other meter and its snapshot as
    they are. *)
Lemma op_world_isolated w p m s o p' m' s' :
  wf_world w -> points_to w p m s -> p' <> p ->
  points_to w p' m' s' -> points_to (op_world p o m s w) p' m' s'.
Proof.
  intros (Hal & Hinj & Hreg) [Hm Hs] Hne [Hm' Hs']. split.
  - rewrite (op_world_meters _ _ _ _ _ Hm). now rewrite lookup_insert_ne.
  - rewrite (op_world_snapshots_other _ _ _ _ _ _ Hs); [assumption| |eauto].
    intros E. apply Hne. symmetry. eapply Hinj; eauto.
Qed.

Lemma tickMeters_wf nw order w :
  wf_world w ->
  (forall p, p ∈ order.*1 -> is_Some (standardMeters w !! p)) ->
  exists w',
    tickMeters nw order w = (Ok tt, w') /\
    wf_world w' /\
    arbiter w' = arbiter w /\
    (forall p, is_Some (standardMeters w !! p) ->
               is_Some (standardMeters w' !! p)) /\
    (forall p m s, p ∉ order.*1 -> points_to w p m s -> points_to w' p m s).
Proof.
  revert w. induction order as [|[p0 t0] order IH]; intros w Hwf Hal; simpl.
  - exists w. split; [reflexivity|]. split; [assumption|].
    split; [reflexivity|]. split; auto.
  - destruct (Hal p0) as [m0 Hm0]; [simpl; left|].
    destruct (wf_points_to _ _ _ Hwf Hm0) as [s0 Hp0].
    pose proof (run_op_exact w p0 m0 s0 (OpTick nw t0) Hp0) as Hrun.
    simpl run_op in Hrun.
    set (w1 := op_world p0 (OpTick nw t0) m0 s0 w) in *.
    assert (Hkeep1 : forall p, is_Some (standardMeters w !! p) ->
                               is_Some (standardMeters w1 !! p)).
    { intros p Hp. unfold w1. rewrite (op_world_meters _ _ _ _ _ Hm0).
      destruct (decide (p0 = p)) as [<-|Hne].
      - rewrite lookup_insert_eq. eauto.
      - now rewrite lookup_insert_ne. }
    destruct (IH w1) as (w' & Hrun' & Hwf' & HA & Hkeep & Hframe).
    { now apply wf_op_world. }
    { intros p Hp. apply Hkeep1, Hal. simpl. now right. }
    exists w'. rewrite (bind_Ok _ _ _ _ _ Hrun).
    split; [assumption|]. split; [assumption|].
    split; [now rewrite HA|]. split; [auto|].
    intros p m s Hp Hpt. simpl in Hp. apply not_elem_of_cons in Hp as [Hne Hp].
    apply Hframe; [assumption|]. now apply op_world_isolated.
Qed.

Lemma enumerates_allocated order w :
  wf_world w -> enumerates order w ->
  forall p, p ∈ order.*1 -> is_Some (standardMeters w !! p).
Proof.
  intros (_ & _ & Hreg) Hen p Hp. apply Hreg.
  unfold enumerates in Hen. rewrite Hen in Hp. now apply elem_of_elements.
Qed.

Lemma run_action_wf Exp a w :
  wf_world w -> admissible a w ->
  exists w', run_action Exp a w = (Ok tt, w') /\ wf_world w'.
Proof.
  intros Hwf Had. destruct a as [nw|p o|nw order]; simpl in *.
  - destruct (NewMeter Exp nw w) as [[x|msg] w'] eqn:Hnew.
    + exists w'. rewrite (bind_Ok _ _ _ _ _ Hnew).
      split; [reflexivity|]. eapply wf_NewMeter; eassumption.
    + exfalso. destruct (UseNilMetrics w) eqn:Hnil.
      * rewrite (NewMeter_nil _ _ _ Hnil) in Hnew. discriminate.
      * rewrite (NewMeter_spec _ _ _ Hnil) in Hnew. discriminate.
  - destruct Had as [m Hm].
    destruct (wf_points_to _ _ _ Hwf Hm) as [s Hp].
    exists (op_world p o m s w). split; [now apply run_op_exact|].
    now apply wf_op_world.
  - destruct (tickMeters_wf nw order w Hwf) as (w' & Hrun & Hwf' & _).
    + now apply enumerates_allocated.
    + now exists w'.
Qed.

Lemma reachable_wf Exp w : reachable Exp w -> wf_world w.
Proof.
  induction 1 as [w Hi|w a w' _ IH Had Hrun]; [now apply wf_initial|].
  destruct (run_action_wf Exp a w IH Had) as (w2 & Hrun2 & Hwf2).
  rewrite Hrun in Hrun2. now inversion Hrun2; subst.
Qed.

(** X2: from the initial state of the package, whatever meters are built,
    whatever methods are called on them and whatever passes the arbiter
    makes, the next such action returns normally: it does not panic. *)
Theorem reachable_no_panic Exp w a :
  reachable Exp w -> admissible a w ->
  exists w', run_action Exp a w = (Ok tt, w') /\ reachable Exp w'.
Proof.
  intros Hr Had.
  destruct (run_action_wf Exp a w (reachable_wf _ _ Hr) Had)
    as (w' & Hrun & _).
  exists w'. split; [assumption|]. eapply reachable_step; eassumption.
Qed.

Lemma one_meter_world_reachable : reachable Exp0 one_meter_world.
Proof.
  apply (reachable_step Exp0 empty_world (ANewMeter 100)).
  - apply reachable_initial. repeat split.
  - exact I.
  - vm_compute. reflexivity.
Qed.

Lemma reachable_no_panic_witness :
  exists w',
    run_action Exp0 (AOp 1%nat (OpSnapshot 200)) one_meter_world = (Ok tt, w')
    /\ reachable Exp0 w'.
Proof.
  apply (reachable_no_panic Exp0 one_meter_world (AOp 1%nat (OpSnapshot 200))).
  - exact one_meter_world_reachable.
  - vm_compute. eauto.
Defined.

(** ** Construction and registration *)

(** X3: with metrics enabled, [NewMeter] allocates a meter at an address
    that is not [nil] and held no meter, registers it with the arbiter,
    marks the arbiter as started, and leaves every existing meter, snapshot
    and registration in place; the new meter counts 0, is not stopped, and
    its start time and step baseline are the clock reading. *)
Theorem NewMeter_registers Exp nw w :
  UseNilMetrics w = false ->
  exists p w1 m s,
    NewMeter Exp nw w = (Ok (MStandard p), w1) /\
    p <> nilptr /\
    standardMeters w !! p = None /\
    meters (arbiter w1) = {[p]} ∪ meters (arbiter w) /\
    started (arbiter w1) = true /\
    points_to w1 p m s /\
    snapshots w !! snapshot m = None /\
    count s = 0 /\ stopped m = 0 /\ startTime m = nw /\ _lastTime s = nw /\
    (forall p' m', standardMeters w !! p' = Some m' ->
                   standardMeters w1 !! p' = Some m') /\
    (forall q' s', snapshots w !! q' = Some s' ->
                   snapshots w1 !! q' = Some s').
Proof.
  intros Hnil.
  set (q := fresh ({[nilptr]} ∪ dom (snapshots w))).
  set (p := fresh ({[nilptr]} ∪ dom (standardMeters w))).
  assert (Hq : snapshots w !! q = None) by apply fresh_snapshot_not_allocated.
  assert (Hp : standardMeters w !! p = None)
    by apply fresh_meter_not_allocated.
  eexists p, _, (new_meter Exp nw q), (zero_snapshot nw).
  split; [now apply NewMeter_spec|].
  split; [apply fresh_not_nil|]. split; [assumption|].
  split; [reflexivity|]. split; [reflexivity|].
  split; [split; simpl; apply lookup_insert_eq|].
  split; [assumption|].
  repeat (split; [reflexivity|]). split; simpl.
  - intros p' m' H. rewrite lookup_insert_ne; [assumption|].
    intros E. subst p'. unfold p in Hp. rewrite Hp in H. discriminate.
  - intros q' s' H. rewrite lookup_insert_ne; [assumption|].
    intros E. subst q'. unfold q in Hq. rewrite Hq in H. discriminate.
Qed.

Lemma NewMeter_registers_witness :
  exists p w1 m s,
    NewMeter Exp0 150 one_meter_world = (Ok (MStandard p), w1) /\
    p <> nilptr /\
    standardMeters one_meter_world !! p = None /\
    meters (arbiter w1) = {[p]} ∪ meters (arbiter one_meter_world) /\
    started (arbiter w1) = true /\
    points_to w1 p m s /\
    snapshots one_meter_world !! snapshot m = None /\
    count s = 0 /\ stopped m = 0 /\ startTime m = 150 /\ _lastTime s = 150 /\
    (forall p' m', standardMeters one_meter_world !! p' = Some m' ->
                   standardMeters w1 !! p' = Some m') /\
    (forall q' s', snapshots one_meter_world !! q' = Some s' ->
                   snapshots w1 !! q' = Some s').
Proof. apply (NewMeter_registers Exp0 150 one_meter_world). reflexivity. Defined.

(** X4: with [UseNilMetrics] set, [NewMeter] returns a [NilMeter] and
    changes nothing: no object is allocated, nothing is registered and the
    arbiter is not started.  Whatever is then called on the result, the
    state stays as it is and nothing panics; its count is 0 and its
    snapshot is again a [NilMeter]. *)
Theorem NewMeter_disabled Exp nw w :
  UseNilMetrics w = true ->
  NewMeter Exp nw w = (Ok MNil, w) /\
  (forall cs w', Meter_calls MNil cs w' = (Ok tt, w')) /\
  (forall w', Meter_Count MNil w' = (Ok 0, w')) /\
  (forall t w', Meter_Snapshot MNil t w' = (Ok MNil, w')).
Proof.
  intros Hnil. split; [now apply NewMeter_nil|].
  split; [|now split].
  intros cs. induction cs as [|c cs IH]; intros w'; [reflexivity|].
  simpl. rewrite (bind_Ok _ _ _ tt w'); [apply IH|].
  now destruct c.
Qed.

Lemma NewMeter_disabled_witness :
  NewMeter Exp0 100 disabled_world = (Ok MNil, disabled_world) /\
  (forall cs w', Meter_calls MNil cs w' = (Ok tt, w')) /\
  (forall w', Meter_Count MNil w' = (Ok 0, w')) /\
  (forall t w', Meter_Snapshot MNil t w' = (Ok MNil, w')).
Proof. apply (NewMeter_disabled Exp0 100 disabled_world). reflexivity. Defined.

(** X5: [Stop()] on a live meter removes exactly that meter from the
    arbiter's set, sets the stopped flag, and leaves the last published
    values readable: the snapshot heap and every other meter are as
    before. *)
Theorem Stop_deregisters w p m s :
  points_to w p m s -> stopped m <> 1 ->
  exists w1,
    StandardMeter_Stop p w = (Ok tt, w1) /\
    meters (arbiter w1) = meters (arbiter w) ∖ {[p]} /\
    (p ∉ meters (arbiter w1)) /\
    started (arbiter w1) = started (arbiter w) /\
    points_to w1 p (set_stopped 1 m) s /\
    snapshots w1 = snapshots w /\
    (forall p', p' <> p -> standardMeters w1 !! p' = standardMeters w !! p') /\
    StandardMeter_Count p w1 = (Ok (count s), w1) /\
    StandardMeter_Rate1 p w1 = (Ok (Float64frombits (rate1 s)), w1) /\
    StandardMeter_Rate5 p w1 = (Ok (Float64frombits (rate5 s)), w1) /\
    StandardMeter_Rate15 p w1 = (Ok (Float64frombits (rate15 s)), w1) /\
    StandardMeter_RateMean p w1 = (Ok (Float64frombits (rateMean s)), w1).
Proof.
  intros [Hm Hs] Hlive.
  pose proof (StandardMeter_Stop_spec _ _ _ Hm) as Hstop.
  destruct (Z.eqb_spec (stopped m) 1) as [E|_]; [contradiction|].
  simpl in Hstop.
  eexists. split; [exact Hstop|].
  assert (Hp1 : points_to
                  (setA {| started := started (arbiter w);
                           meters := meters (arbiter w) ∖ {[p]} |}
                     (setM p (set_stopped 1 m) w)) p (set_stopped 1 m) s).
  { split; simpl; [apply lookup_insert_eq|assumption]. }
  split; [reflexivity|]. split.
  { simpl. intros Hin. apply elem_of_difference in Hin as [_ Hin].
    apply Hin. now apply elem_of_singleton. }
  split; [reflexivity|]. split; [assumption|]. split; [reflexivity|].
  split; [intros p' Hne; simpl; now rewrite lookup_insert_ne|].
  rewrite (StandardMeter_Count_spec _ _ _ _ Hp1),
    (StandardMeter_Rate1_spec _ _ _ _ Hp1),
    (StandardMeter_Rate5_spec _ _ _ _ Hp1),
    (StandardMeter_Rate15_spec _ _ _ _ Hp1),
    (StandardMeter_RateMean_spec _ _ _ _ Hp1).
  repeat split.
Qed.

Lemma Stop_deregisters_witness :
  exists w1,
    StandardMeter_Stop 2%nat two_meter_world = (Ok tt, w1) /\
    meters (arbiter w1) = meters (arbiter two_meter_world) ∖ {[2%nat]} /\
    (2%nat ∉ meters (arbiter w1)) /\
    started (arbiter w1) = started (arbiter two_meter_world) /\
    points_to w1 2%nat (set_stopped 1 (new_meter Exp0 150 2%nat))
      (zero_snapshot 150) /\
    snapshots w1 = snapshots two_meter_world /\
    (forall p', p' <> 2%nat ->
                standardMeters w1 !! p' = standardMeters two_meter_world !! p')
    /\ StandardMeter_Count 2%nat w1 = (Ok 0, w1)
    /\ StandardMeter_Rate1 2%nat w1 = (Ok (Float64frombits 0), w1)
    /\ StandardMeter_Rate5 2%nat w1 = (Ok (Float64frombits 0), w1)
    /\ StandardMeter_Rate15 2%nat w1 = (Ok (Float64frombits 0), w1)
    /\ StandardMeter_RateMean 2%nat w1 = (Ok (Float64frombits 0), w1).
Proof.
  apply (Stop_deregisters two_meter_world 2%nat (new_meter Exp0 150 2%nat)
           (zero_snapshot 150)).
  - split; vm_compute; reflexivity.
  - simpl. discriminate.
Defined.

(** ** Marking and ticking *)

(** X6: [Mark(n)] on a live meter adds [n] to the count (as an [int64]),
    feeds [n] to the three EWMAs, and publishes the EWMAs' rates and the
    mean rate [float64(count) / seconds since start], which the readers then
    return; the step rate and its baseline are not touched. *)
Theorem Mark_publishes w p m s n nw :
  points_to w p m s -> stopped m <> 1 ->
  exists w1 s1,
    StandardMeter_Mark p n nw w = (Ok tt, w1) /\
    points_to w1 p (mark_meter n m) s1 /\
    uncounted (a1 (mark_meter n m)) = wrap64 (uncounted (a1 m) + n) /\
    uncounted (a5 (mark_meter n m)) = wrap64 (uncounted (a5 m) + n) /\
    uncounted (a15 (mark_meter n m)) = wrap64 (uncounted (a15 m) + n) /\
    StandardMeter_Count p w1 = (Ok (wrap64 (count s + n)), w1) /\
    StandardMeter_Rate1 p w1 = (Ok (EWMA_Rate (a1 (mark_meter n m))), w1) /\
    StandardMeter_Rate5 p w1 = (Ok (EWMA_Rate (a5 (mark_meter n m))), w1) /\
    StandardMeter_Rate15 p w1 = (Ok (EWMA_Rate (a15 (mark_meter n m))), w1) /\
    StandardMeter_RateMean p w1
    = (Ok (float64_of_int64 (wrap64 (count s + n))
           / Duration_Seconds (Time_Sub nw (startTime m)))%float, w1) /\
    _lastCount s1 = _lastCount s /\ _lastTime s1 = _lastTime s /\
    rateStep s1 = rateStep s.
Proof.
  intros Hp Hlive.
  pose proof (StandardMeter_Mark_live _ _ _ _ n nw Hp Hlive) as Hrun.
  set (s1 := publish (mark_meter n m) nw
               (set_count (int64_add (count s) n) s)) in *.
  assert (Hp1 : points_to (setS (snapshot m) s1 (setM p (mark_meter n m) w))
                  p (mark_meter n m) s1)
    by now apply points_to_update.
  eexists _, s1. split; [exact Hrun|]. split; [assumption|].
  rewrite (StandardMeter_Count_spec _ _ _ _ Hp1),
    (StandardMeter_Rate1_spec _ _ _ _ Hp1),
    (StandardMeter_Rate5_spec _ _ _ _ Hp1),
    (StandardMeter_Rate15_spec _ _ _ _ Hp1),
    (StandardMeter_RateMean_spec _ _ _ _ Hp1).
  unfold s1, publish; simpl. rewrite !frombits_bits.
  repeat split.
Qed.

Lemma Mark_publishes_witness :
  exists w1 s1,
    StandardMeter_Mark 1%nat 3 2000000100 one_meter_world = (Ok tt, w1) /\
    points_to w1 1%nat (mark_meter 3 (new_meter Exp0 100 1%nat)) s1 /\
    StandardMeter_Count 1%nat w1 = (Ok 3, w1) /\
    StandardMeter_RateMean 1%nat w1 = (Ok 1.5%float, w1).
Proof.
  destruct (Mark_publishes one_meter_world 1%nat (new_meter Exp0 100 1%nat)
              (zero_snapshot 100) 3 2000000100)
    as (w1 & s1 & Hrun & Hp1 & _ & _ & _ & Hc & _ & _ & _ & Hmean & _).
  - split; vm_compute; reflexivity.
  - simpl. discriminate.
  - exists w1, s1. repeat split; try assumption; apply Hp1.
Defined.

(** X7: a tick of a meter advances its three EWMAs and republishes their
    rates, which the readers then return; it does not depend on its
    argument [now], and it leaves the count, the step rate and the step
    baseline as they are. *)
Theorem tick_publishes w p m s now nw :
  points_to w p m s ->
  exists w1 s1,
    StandardMeter_tick p now nw w = (Ok tt, w1) /\
    (forall now', StandardMeter_tick p now' nw w = (Ok tt, w1)) /\
    points_to w1 p (tick_meter m) s1 /\
    a1 (tick_meter m) = EWMA_Tick (a1 m) /\
    a5 (tick_meter m) = EWMA_Tick (a5 m) /\
    a15 (tick_meter m) = EWMA_Tick (a15 m) /\
    StandardMeter_Rate1 p w1 = (Ok (EWMA_Rate (EWMA_Tick (a1 m))), w1) /\
    StandardMeter_Rate5 p w1 = (Ok (EWMA_Rate (EWMA_Tick (a5 m))), w1) /\
    StandardMeter_Rate15 p w1 = (Ok (EWMA_Rate (EWMA_Tick (a15 m))), w1) /\
    count s1 = count s /\ _lastCount s1 = _lastCount s /\
    _lastTime s1 = _lastTime s /\ rateStep s1 = rateStep s.
Proof.
  intros Hp.
  assert (Hp1 : points_to
                  (setS (snapshot m) (publish (tick_meter m) nw s)
                     (setM p (tick_meter m) w))
                  p (tick_meter m) (publish (tick_meter m) nw s))
    by now apply points_to_update.
  eexists _, (publish (tick_meter m) nw s).
  split; [exact (StandardMeter_tick_spec _ _ _ _ _ _ Hp)|].
  split; [intros now'; exact (StandardMeter_tick_spec _ _ _ _ _ _ Hp)|].
  split; [assumption|].
  rewrite (StandardMeter_Rate1_spec _ _ _ _ Hp1),
    (StandardMeter_Rate5_spec _ _ _ _ Hp1),
    (StandardMeter_Rate15_spec _ _ _ _ Hp1).
  unfold publish; simpl. rewrite !frombits_bits.
  repeat split.
Qed.

Lemma tick_publishes_witness :
  exists w1 s1,
    StandardMeter_tick 1%nat 5000000000 5000000100 one_meter_world
    = (Ok tt, w1) /\
    points_to w1 1%nat (tick_meter (new_meter Exp0 100 1%nat)) s1 /\
    count s1 = 0.
Proof.
  destruct (tick_publishes one_meter_world 1%nat (new_meter Exp0 100 1%nat)
              (zero_snapshot 100) 5000000000 5000000100)
    as (w1 & s1 & Hrun & _ & Hp1 & _ & _ & _ & _ & _ & _ & Hc & _).
  - split; vm_compute; reflexivity.
  - exists w1, s1. repeat split; try assumption; apply Hp1.
Defined.

(** X8: [Mark(n)] followed by [Mark(-n)] on a live meter restores the
    count, also when the intermediate sum overflows. *)
Theorem Mark_then_unmark w p m s n t1 t2 :
  points_to w p m s -> stopped m <> 1 -> is_int64 (count s) ->
  exists w2,
    run_ops p [OpMark n t1; OpMark (- n) t2] w = (Ok tt, w2) /\
    StandardMeter_Count p w2 = (Ok (count s), w2).
Proof.
  intros Hp Hlive Hc.
  destruct (run_ops_ok _ _ _ _ [OpMark n t1; OpMark (- n) t2] Hp)
    as (w2 & Hrun & Hp2 & _).
  exists w2. split; [assumption|].
  rewrite (StandardMeter_Count_spec _ _ _ _ Hp2).
  rewrite ops_count_live by (assumption || reflexivity).
  simpl marked. replace (count s + (n + (- n + 0))) with (count s) by lia.
  now rewrite wrap64_id.
Qed.

Lemma Mark_then_unmark_witness :
  exists w2,
    run_ops 1%nat [OpMark max_int64 200; OpMark (- max_int64) 300]
      (snd (StandardMeter_Mark 1%nat 7 150 one_meter_world)) = (Ok tt, w2) /\
    StandardMeter_Count 1%nat w2 = (Ok 7, w2).
Proof.
  apply (Mark_then_unmark
           (snd (StandardMeter_Mark 1%nat 7 150 one_meter_world)) 1%nat
           (mark_meter 7 (new_meter Exp0 100 1%nat))
           (publish (mark_meter 7 (new_meter Exp0 100 1%nat)) 150
              (set_count 7 (zero_snapshot 100)))
           max_int64 200 300).
  - split; vm_compute; reflexivity.
  - simpl. discriminate.
  - unfold is_int64, min_int64, max_int64. simpl. lia.
Defined.

(** X9: [RateStep()] and [Snapshot()] both move the step baseline: a
    [RateStep()] that follows either of them at a later clock reading, with
    nothing marked in between, returns 0, whatever was marked before. *)
Theorem RateStep_after_refresh_is_zero w p m s o nw1 nw2 :
  points_to w p m s ->
  o = OpRateStep nw1 \/ o = OpSnapshot nw1 ->
  (0 <? Duration_Seconds (Time_Sub nw2 nw1))%float = true ->
  exists w1 w2,
    run_op p o w = (Ok tt, w1) /\
    StandardMeter_RateStep p nw2 w1 = (Ok 0%float, w2).
Proof.
  intros Hp Ho Hstep.
  destruct (run_op_ok w p m s o Hp) as (w1 & Hrun & Hp1 & _).
  exists w1. eexists. split; [assumption|].
  assert (E : op_meter o m = m /\ op_snapshot o m s = step_snapshot m nw1 s)
    by (destruct Ho as [-> | ->]; now split).
  destruct E as [Em Es]. rewrite Em, Es in Hp1.
  rewrite (StandardMeter_RateStep_spec _ _ _ _ nw2 Hp1).
  f_equal. f_equal. unfold step_snapshot at 1. cbn [rateStep _lastTime].
  cbn [step_snapshot _lastTime count _lastCount].
  rewrite Hstep, frombits_bits.
  unfold int64_sub. rewrite Z.sub_diag.
  change (float64_of_int64 (wrap64 0)) with 0%float.
  now apply float_zero_div.
Qed.

Lemma RateStep_after_refresh_is_zero_witness :
  exists w1 w2,
    run_op 1%nat (OpSnapshot 2000000100)
      (snd (StandardMeter_Mark 1%nat 5 100 one_meter_world)) = (Ok tt, w1) /\
    StandardMeter_RateStep 1%nat 3000000100 w1 = (Ok 0%float, w2).
Proof.
  apply (RateStep_after_refresh_is_zero
           (snd (StandardMeter_Mark 1%nat 5 100 one_meter_world)) 1%nat
           (mark_meter 5 (new_meter Exp0 100 1%nat))
           (publish (mark_meter 5 (new_meter Exp0 100 1%nat)) 100
              (set_count 5 (zero_snapshot 100)))
           (OpSnapshot 2000000100) 2000000100 3000000100).
  - split; vm_compute; reflexivity.
  - now right.
  - vm_compute. reflexivity.
Defined.

(** ** Meters do not interfere *)

Lemma op_world_points_to w p m s o :
  points_to w p m s ->
  points_to (op_world p o m s w) p (op_meter o m) (op_snapshot o m s).
Proof.
  intros [Hm Hs]. split.
  - rewrite (op_world_meters _ _ _ _ _ Hm). apply lookup_insert_eq.
  - rewrite op_meter_snapshot. now apply op_world_snapshots_own.
Qed.

(** X10: in a well-formed world, no sequence of operations on one meter
    changes another meter or the snapshot it publishes. *)
Theorem other_meters_untouched w p m s p' m' s' os :
  wf_world w -> points_to w p m s -> points_to w p' m' s' -> p' <> p ->
  exists w',
    run_ops p os w = (Ok tt, w') /\
    points_to w' p' m' s' /\
    wf_world w'.
Proof.
  revert w m s. induction os as [|o os IH]; intros w m s Hwf Hp Hp' Hne.
  - now exists w.
  - simpl. rewrite (bind_Ok _ _ _ _ _ (run_op_exact w p m s o Hp)).
    apply (IH (op_world p o m s w) (op_meter o m) (op_snapshot o m s)).
    + now apply wf_op_world.
    + now apply op_world_points_to.
    + now apply op_world_isolated.
    + assumption.
Qed.

Lemma two_meter_world_wf : wf_world two_meter_world.
Proof.
  apply (reachable_wf Exp0).
  apply (reachable_step Exp0 one_meter_world (ANewMeter 150)).
  - exact one_meter_world_reachable.
  - exact I.
  - vm_compute. reflexivity.
Qed.

Lemma other_meters_untouched_witness :
  exists w',
    run_ops 1%nat [OpMark 4 200; OpTick 0 300; OpSnapshot 400; OpStop]
      two_meter_world = (Ok tt, w') /\
    points_to w' 2%nat (new_meter Exp0 150 2%nat) (zero_snapshot 150) /\
    wf_world w'.
Proof.
  apply (other_meters_untouched two_meter_world 1%nat
           (new_meter Exp0 100 1%nat) (zero_snapshot 100)).
  - exact two_meter_world_wf.
  - split; vm_compute; reflexivity.
  - split; vm_compute; reflexivity.
  - discriminate.
Defined.

Lemma arbiter_tick_frame events w p m s :
  wf_world w -> p ∉ meters (arbiter w) -> points_to w p m s ->
  (forall e, e ∈ events -> enumerates (snd e) w) ->
  exists w',
    arbiter_tick events w = (Ok tt, w') /\
    points_to w' p m s /\
    wf_world w'.
Proof.
  revert w. induction events as [|[nw order] events IH];
    intros w Hwf Hout Hp Hen.
  - now exists w.
  - assert (Hord : enumerates order w) by (apply (Hen (nw, order)); left).
    destruct (tickMeters_wf nw order w Hwf)
      as (w1 & Hrun & Hwf1 & HA & _ & Hframe).
    { now apply enumerates_allocated. }
    destruct (IH w1) as (w' & Hrun' & Hp' & Hwf'); try assumption.
    + now rewrite HA.
    + apply Hframe; [|assumption].
      unfold enumerates in Hord. rewrite Hord.
      intros Hin. apply Hout. now apply elem_of_elements.
    + intros e He. unfold enumerates. rewrite HA. apply (Hen e). now right.
    + exists w'. simpl. now rewrite (bind_Ok _ _ _ _ _ Hrun).
Qed.

(** X11: once a live meter has been stopped, the passes of the arbiter no
    longer reach it: after any number of passes its EWMAs and its published
    count and rates are the ones it had when it was stopped. *)
Theorem stopped_meter_is_frozen w p m s :
  wf_world w -> points_to w p m s -> stopped m <> 1 ->
  exists w1,
    StandardMeter_Stop p w = (Ok tt, w1) /\
    forall events,
      (forall e, e ∈ events -> enumerates (snd e) w1) ->
      exists w2,
        arbiter_tick events w1 = (Ok tt, w2) /\
        points_to w2 p (set_stopped 1 m) s /\
        StandardMeter_Count p w2 = (Ok (count s), w2) /\
        StandardMeter_Rate1 p w2 = (Ok (Float64frombits (rate1 s)), w2) /\
        StandardMeter_Rate5 p w2 = (Ok (Float64frombits (rate5 s)), w2) /\
        StandardMeter_Rate15 p w2 = (Ok (Float64frombits (rate15 s)), w2).
Proof.
  intros Hwf Hp Hlive.
  pose proof (run_op_exact w p m s OpStop Hp) as Hrun. simpl run_op in Hrun.
  exists (op_world p OpStop m s w). split; [assumption|].
  intros events Hen.
  destruct (arbiter_tick_frame events (op_world p OpStop m s w) p
              (set_stopped 1 m) s)
    as (w2 & Hrun2 & Hp2 & _); try assumption.
  - now apply wf_op_world.
  - rewrite op_world_registered.
    destruct (Z.eqb_spec (stopped m) 1) as [E|_]; [contradiction|]. simpl.
    intros Hin. apply elem_of_difference in Hin as [_ Hin].
    apply Hin. now apply elem_of_singleton.
  - apply (op_world_points_to w p m s OpStop Hp).
  - exists w2. split; [assumption|]. split; [assumption|].
    rewrite (StandardMeter_Count_spec _ _ _ _ Hp2),
      (StandardMeter_Rate1_spec _ _ _ _ Hp2),
      (StandardMeter_Rate5_spec _ _ _ _ Hp2),
      (StandardMeter_Rate15_spec _ _ _ _ Hp2).
    repeat split.
Qed.

Lemma stopped_meter_is_frozen_witness :
  exists w1,
    StandardMeter_Stop 1%nat two_meter_world = (Ok tt, w1) /\
    forall events,
      (forall e, e ∈ events -> enumerates (snd e) w1) ->
      exists w2,
        arbiter_tick events w1 = (Ok tt, w2) /\
        points_to w2 1%nat (set_stopped 1 (new_meter Exp0 100 1%nat))
          (zero_snapshot 100) /\
        StandardMeter_Count 1%nat w2 = (Ok 0, w2) /\
        StandardMeter_Rate1 1%nat w2 = (Ok (Float64frombits 0), w2) /\
        StandardMeter_Rate5 1%nat w2 = (Ok (Float64frombits 0), w2) /\
        StandardMeter_Rate15 1%nat w2 = (Ok (Float64frombits 0), w2).
Proof.
  apply (stopped_meter_is_frozen two_meter_world 1%nat
           (new_meter Exp0 100 1%nat) (zero_snapshot 100)).
  - exact two_meter_world_wf.
  - split; vm_compute; reflexivity.
  - simpl. discriminate.
Defined.

Lemma points_to_functional w p m s m' s' :
  points_to w p m s -> points_to w p m' s' -> m = m' /\ s = s'.
Proof.
  intros [Hm Hs] [Hm' Hs']. rewrite Hm in Hm'. inversion Hm'; subst.
  rewrite Hs in Hs'. now inversion Hs'.
Qed.

Lemma tickMeters_publishes nw order w :
  wf_world w -> NoDup order.*1 ->
  (forall p, p ∈ order.*1 -> is_Some (standardMeters w !! p)) ->
  exists w',
    tickMeters nw order w = (Ok tt, w') /\
    forall p t m s,
      (p, t) ∈ order -> points_to w p m s ->
      points_to w' p (tick_meter m) (publish (tick_meter m) t s).
Proof.
  revert w. induction order as [|[p0 t0] order IH]; intros w Hwf Hnd Hal.
  - exists w. split; [reflexivity|]. intros p t m s Hin.
    now apply elem_of_nil in Hin.
  - simpl in Hnd. apply NoDup_cons in Hnd as [Hp0 Hnd].
    destruct (Hal p0) as [m0 Hm0]; [simpl; left|].
    destruct (wf_points_to _ _ _ Hwf Hm0) as [s0 Hpt0].
    pose proof (run_op_exact w p0 m0 s0 (OpTick nw t0) Hpt0) as Hrun.
    simpl run_op in Hrun.
    set (w1 := op_world p0 (OpTick nw t0) m0 s0 w) in *.
    assert (Hwf1 : wf_world w1) by now apply wf_op_world.
    assert (Hal1 : forall p, p ∈ order.*1 -> is_Some (standardMeters w1 !! p)).
    { intros p Hp. unfold w1. rewrite (op_world_meters _ _ _ _ _ Hm0).
      destruct (decide (p0 = p)) as [<-|Hne].
      - rewrite lookup_insert_eq. eauto.
      - rewrite lookup_insert_ne by assumption. apply Hal. simpl. now right. }
    destruct (IH w1 Hwf1 Hnd Hal1) as (w' & Hrun' & Hpub).
    destruct (tickMeters_wf nw order w1 Hwf1 Hal1)
      as (w'' & Hrun'' & _ & _ & _ & Hframe).
    rewrite Hrun' in Hrun''. inversion Hrun''; subst w''.
    exists w'. simpl. rewrite (bind_Ok _ _ _ _ _ Hrun).
    split; [assumption|].
    intros p t m s Hin Hpt. apply elem_of_cons in Hin as [E|Hin].
    + inversion E; subst p t.
      destruct (points_to_functional _ _ _ _ _ _ Hpt Hpt0) as [-> ->].
      apply Hframe; [assumption|].
      apply (op_world_points_to w p0 m0 s0 (OpTick nw t0) Hpt0).
    + assert (Hp : p ∈ order.*1).
      { apply list_elem_of_fmap. now exists (p, t). }
      apply Hpub; [assumption|].
      apply op_world_isolated; try assumption.
      intros ->. contradiction.
Qed.

(** X12: in a well-formed world, after a pass of the arbiter every
    registered meter publishes the rates of its EWMAs as advanced by one
    tick, and its count is unchanged. *)
Theorem pass_publishes_rates nw order w :
  wf_world w -> enumerates order w ->
  exists w',
    tickMeters nw order w = (Ok tt, w') /\
    forall p t m s,
      (p, t) ∈ order -> points_to w p m s ->
      points_to w' p (tick_meter m) (publish (tick_meter m) t s) /\
      StandardMeter_Count p w' = (Ok (count s), w') /\
      StandardMeter_Rate1 p w' = (Ok (EWMA_Rate (EWMA_Tick (a1 m))), w') /\
      StandardMeter_Rate5 p w' = (Ok (EWMA_Rate (EWMA_Tick (a5 m))), w') /\
      StandardMeter_Rate15 p w' = (Ok (EWMA_Rate (EWMA_Tick (a15 m))), w').
Proof.
  intros Hwf Hen.
  destruct (tickMeters_publishes nw order w Hwf) as (w' & Hrun & Hpub).
  - unfold enumerates in Hen. rewrite Hen. apply NoDup_elements.
  - now apply enumerates_allocated.
  - exists w'. split; [assumption|]. intros p t m s Hin Hpt.
    pose proof (Hpub p t m s Hin Hpt) as Hp'.
    split; [assumption|].
    rewrite (StandardMeter_Count_spec _ _ _ _ Hp'),
      (StandardMeter_Rate1_spec _ _ _ _ Hp'),
      (StandardMeter_Rate5_spec _ _ _ _ Hp'),
      (StandardMeter_Rate15_spec _ _ _ _ Hp').
    unfold publish; simpl. rewrite !frombits_bits.
    repeat split.
Qed.

Lemma pass_publishes_rates_witness :
  let order := [(1%nat, 5000000200); (2%nat, 5000000300)] in
  exists w',
    tickMeters 5000000000 order two_meter_world = (Ok tt, w') /\
    forall p t m s,
      (p, t) ∈ order -> points_to two_meter_world p m s ->
      points_to w' p (tick_meter m) (publish (tick_meter m) t s) /\
      StandardMeter_Count p w' = (Ok (count s), w') /\
      StandardMeter_Rate1 p w' = (Ok (EWMA_Rate (EWMA_Tick (a1 m))), w') /\
      StandardMeter_Rate5 p w' = (Ok (EWMA_Rate (EWMA_Tick (a5 m))), w') /\
      StandardMeter_Rate15 p w' = (Ok (EWMA_Rate (EWMA_Tick (a15 m))), w').
Proof.
  intros order.
  apply (pass_publishes_rates 5000000000 order two_meter_world).
  - exact two_meter_world_wf.
  - exact (proj1 two_meter_world_enumerates).
Defined.

(** X13: [Snapshot()] is not read-only on the live meter: it makes the
    refresh that [RateStep()] makes at the same clock reading, and then
    adds one new object, the copy, at an address that is not [nil] and was
    free; the meters and the arbiter are those left by [RateStep()]. *)
Theorem Snapshot_refreshes_like_RateStep w p m s nw :
  points_to w p m s ->
  exists r w1 q c w2,
    StandardMeter_RateStep p nw w = (Ok r, w1) /\
    StandardMeter_Snapshot p nw w = (Ok (MSnapshot q), w2) /\
    q <> nilptr /\
    snapshots w1 !! q = None /\
    snapshots w2 = <[q := c]> (snapshots w1) /\
    snapshot_of w1 p = Some (step_snapshot m nw s) /\
    c = copy_of (step_snapshot m nw s) /\
    standardMeters w2 = standardMeters w1 /\
    arbiter w2 = arbiter w1.
Proof.
  intros Hp. pose proof Hp as [Hm Hs].
  set (w1 := setS (snapshot m) (step_snapshot m nw s) w).
  exists (Float64frombits (rateStep (step_snapshot m nw s))), w1,
    (fresh ({[nilptr]} ∪ dom (snapshots w1))),
    (copy_of (step_snapshot m nw s)).
  eexists. split; [now apply StandardMeter_RateStep_spec|].
  split; [exact (StandardMeter_Snapshot_spec _ _ _ _ nw Hp)|].
  split; [apply fresh_not_nil|].
  split; [apply fresh_snapshot_not_allocated|].
  split; [reflexivity|]. split.
  - unfold snapshot_of, w1. simpl. rewrite Hm. apply lookup_insert_eq.
  - repeat split.
Qed.

Lemma Snapshot_refreshes_like_RateStep_witness :
  exists r w1 q c w2,
    StandardMeter_RateStep 1%nat 200 one_meter_world = (Ok r, w1) /\
    StandardMeter_Snapshot 1%nat 200 one_meter_world = (Ok (MSnapshot q), w2)
    /\ q <> nilptr
    /\ snapshots w1 !! q = None
    /\ snapshots w2 = <[q := c]> (snapshots w1)
    /\ snapshot_of w1 1%nat
       = Some (step_snapshot (new_meter Exp0 100 1%nat) 200
                 (zero_snapshot 100))
    /\ c = copy_of (step_snapshot (new_meter Exp0 100 1%nat) 200
                      (zero_snapshot 100))
    /\ standardMeters w2 = standardMeters w1
    /\ arbiter w2 = arbiter w1.
Proof.
  apply (Snapshot_refreshes_like_RateStep one_meter_world 1%nat
           (new_meter Exp0 100 1%nat) (zero_snapshot 100) 200).
  split; vm_compute; reflexivity.
Defined.
